(** * ForkingDongles: the session state, the event registry and the plugin engine

    A shallow embedding of [forkingdongles/utils.py] (User, Channel),
    [forkingdongles/core.py] (class ForkingDongles) and
    [forkingdongles/plugin.py] (EventManager, PluginManager), followed by the
    properties of the written specification that concern them.

    The sources are Python 3 ([super()] without arguments, [async def]):
    [map] builds a lazy iterator, and a [dict] iterates in insertion order. *)

From Stdlib Require Import Ascii String.
From stdpp Require Import gmap strings list fin_maps.

Local Open Scope string_scope.
Local Open Scope list_scope.

(** ** Python built-ins used by the sources *)

Module Py.

(** [str.lower], on the ASCII range (nicks and channel names are ASCII). *)
Definition lower_ascii (c : ascii) : ascii :=
  let n := nat_of_ascii c in
  if (65 <=? n)%nat && (n <=? 90)%nat then ascii_of_nat (n + 32) else c.

Fixpoint lower (s : string) : string :=
  match s with
  | EmptyString => EmptyString
  | String c r => String (lower_ascii c) (lower r)
  end.

(** [s.startswith(p)] *)
Fixpoint startswith (p s : string) : bool :=
  match p, s with
  | EmptyString, _ => true
  | String a p', String b s' => if decide (a = b) then startswith p' s' else false
  | String _ _, EmptyString => false
  end.

(** [sub in s] on strings: substring test. *)
Fixpoint contains (sub s : string) : bool :=
  startswith sub s ||
  match s with
  | EmptyString => false
  | String _ r => contains sub r
  end.

(** [s[n:]] *)
Fixpoint drop (n : nat) (s : string) : string :=
  match n, s with
  | O, _ => s
  | S _, EmptyString => EmptyString
  | S k, String _ r => drop k r
  end.

(** [s.replace(old, '')]: every non-overlapping occurrence of [old], scanned
    from the left, is deleted. [skip] counts the characters of an occurrence
    still to be dropped. With [old = ''] the result is [s]. *)
Fixpoint replace_skip (old : string) (skip : nat) (s : string) : string :=
  match s with
  | EmptyString => EmptyString
  | String c r =>
      match skip with
      | S k => replace_skip old k r
      | O =>
          match old with
          | EmptyString => String c (replace_skip old 0 r)
          | String _ old' =>
              if startswith old s then replace_skip old (String.length old') r
              else String c (replace_skip old 0 r)
          end
      end
  end.

Definition replace_del (old s : string) : string := replace_skip old 0 s.

(** [s.partition(sep)] for a non-empty [sep]. *)
Fixpoint partition (sep s : string) : string * string * string :=
  match s with
  | EmptyString => (EmptyString, EmptyString, EmptyString)
  | String c r =>
      if startswith sep s then (EmptyString, sep, drop (String.length sep) s)
      else let '(a, b, d) := partition sep r in (String c a, b, d)
  end.

(** The characters [str.split()] treats as separators, on the ASCII range. *)
Definition is_space (c : ascii) : bool :=
  let n := nat_of_ascii c in
  ((9 <=? n)%nat && (n <=? 13)%nat) || ((28 <=? n)%nat && (n <=? 32)%nat).

(** [s.split()]: the maximal runs of non-separator characters. [cur] is the
    run being read, in reverse. *)
Fixpoint split_acc (cur : list ascii) (s : string) : list string :=
  match s with
  | EmptyString =>
      match cur with
      | [] => []
      | _ => [string_of_list_ascii (rev cur)]
      end
  | String c r =>
      if is_space c then
        match cur with
        | [] => split_acc [] r
        | _ => string_of_list_ascii (rev cur) :: split_acc [] r
        end
      else split_acc (c :: cur) r
  end.

Definition split (s : string) : list string := split_acc [] s.

(** [x in l] on a list of strings. *)
Definition inb (x : string) (l : list string) : bool := bool_decide (x ∈ l).

(** [l.remove(x)]: deletes the first occurrence; the sources call it only
    under an [x in l] guard, so the [ValueError] branch is never taken. *)
Fixpoint remove (x : string) (l : list string) : list string :=
  match l with
  | [] => []
  | y :: r => if decide (x = y) then r else y :: remove x r
  end.

(** [s[0]] as a one-character string, [None] for the [IndexError]. *)
Definition head (s : string) : option string :=
  match s with
  | EmptyString => None
  | String c _ => Some (String c EmptyString)
  end.

End Py.

(** ** utils.py: class User *)

Module User.

Record t := mk {
  nick : string;
  user : string;
  host : string;
  modes : string;
  is_self : bool
}.

(** [User.__init__(mask, modes='', is_self=False)] *)
Definition init (mask : string) : t :=
  let '(n, _, rest) := Py.partition "!" mask in
  let '(u, _, h) := Py.partition "@" rest in
  mk n u h "" false.

Definition isIdentified (u : t) : bool := Py.contains "r" (modes u).
Definition isSecure (u : t) : bool := Py.contains "z" (modes u).
Definition isOper (u : t) : bool := Py.contains "o" (modes u).

Definition with_modes (m : string) (u : t) : t :=
  mk (nick u) (user u) (host u) m (is_self u).

Definition with_nick (n : string) (u : t) : t :=
  mk n (user u) (host u) (modes u) (is_self u).

Definition with_is_self (b : bool) (u : t) : t :=
  mk (nick u) (user u) (host u) (modes u) b.

(** [User.setMode(added, mode, arg=None)] *)
Definition setMode (added : bool) (mode : string) (arg : option string) (u : t) : t :=
  if added && negb (Py.contains mode (modes u)) then
    with_modes (modes u +:+ mode) u
  else if negb added && Py.contains mode (modes u) then
    with_modes (Py.replace_del mode (modes u)) u
  else u.

(** The flag test both branches of [setMode] start from: [mode in self.modes]. *)
Definition has_mode (mode : string) (u : t) : bool := Py.contains mode (modes u).

End User.

(** ** utils.py: class Channel *)

Module Channel.

(** [oid] stands for the identity of the Python object: Channel defines no
    [__eq__], so [channel in blacklist] compares Channel objects by identity. *)
Record t := mk {
  oid : nat;
  name : string;
  users : list string;
  modes : string;
  qops : list string;
  sops : list string;
  aops : list string;
  hops : list string;
  vops : list string;
  bans : list string;
  isUser : bool
}.

(** The attribute names the methods reach through [getattr]. *)
Inductive attr := Users | Qops | Sops | Aops | Hops | Vops.

Definition getattr (a : attr) (c : t) : list string :=
  match a with
  | Users => users c | Qops => qops c | Sops => sops c
  | Aops => aops c | Hops => hops c | Vops => vops c
  end.

Definition setattr (a : attr) (l : list string) (c : t) : t :=
  match a with
  | Users => mk (oid c) (name c) l (modes c) (qops c) (sops c) (aops c) (hops c) (vops c) (bans c) (isUser c)
  | Qops => mk (oid c) (name c) (users c) (modes c) l (sops c) (aops c) (hops c) (vops c) (bans c) (isUser c)
  | Sops => mk (oid c) (name c) (users c) (modes c) (qops c) l (aops c) (hops c) (vops c) (bans c) (isUser c)
  | Aops => mk (oid c) (name c) (users c) (modes c) (qops c) (sops c) l (hops c) (vops c) (bans c) (isUser c)
  | Hops => mk (oid c) (name c) (users c) (modes c) (qops c) (sops c) (aops c) l (vops c) (bans c) (isUser c)
  | Vops => mk (oid c) (name c) (users c) (modes c) (qops c) (sops c) (aops c) (hops c) l (bans c) (isUser c)
  end.

Definition with_modes (m : string) (c : t) : t :=
  mk (oid c) (name c) (users c) m (qops c) (sops c) (aops c) (hops c) (vops c) (bans c) (isUser c).

Definition with_bans (l : list string) (c : t) : t :=
  mk (oid c) (name c) (users c) (modes c) (qops c) (sops c) (aops c) (hops c) (vops c) l (isUser c).

(** [Channel.__init__(name, modes='')] *)
Definition init (o : nat) (nm : string) : t :=
  mk o nm [] "" [] [] [] [] [] [] (negb (Py.startswith "#" nm)).

Definition isQOP (nk : string) (c : t) : bool := Py.inb (Py.lower nk) (qops c).
Definition isSOP (nk : string) (c : t) : bool := Py.inb (Py.lower nk) (sops c).
Definition isAOP (nk : string) (c : t) : bool := Py.inb (Py.lower nk) (aops c).
Definition isOP := isAOP.
Definition isHOP (nk : string) (c : t) : bool := Py.inb (Py.lower nk) (hops c).
Definition isHalfOP := isHOP.
Definition isVOP (nk : string) (c : t) : bool := Py.inb (Py.lower nk) (vops c).
Definition isVoice := isVOP.

(** [Channel.addUser(user)], [user] already reduced to its nick. *)
Definition addUser (nk : string) (c : t) : t :=
  if negb (Py.inb (Py.lower nk) (users c))
  then setattr Users (users c ++ [Py.lower nk]) c
  else c.

Definition all_attrs : list attr := [Users; Qops; Sops; Aops; Hops; Vops].

(** The body of the [for attr in [...]] loop of [renameUser]. *)
Definition rename_in (nk new : string) (c : t) (a : attr) : t :=
  if Py.inb (Py.lower nk) (getattr a c)
  then setattr a (Py.remove (Py.lower nk) (getattr a c) ++ [Py.lower new]) c
  else c.

(** [Channel.renameUser(user, new)] *)
Definition renameUser (nk new : string) (c : t) : t :=
  foldl (rename_in nk new) c all_attrs.

(** The body of the [for attr in [...]] loop of [removeUser]. *)
Definition remove_in (nk : string) (c : t) (a : attr) : t :=
  if Py.inb (Py.lower nk) (getattr a c)
  then setattr a (Py.remove (Py.lower nk) (getattr a c)) c
  else c.

(** [Channel.removeUser(user)] *)
Definition removeUser (nk : string) (c : t) : t :=
  foldl (remove_in nk) c all_attrs.

(** The [op_translations] table of [setMode], composed with the [+ 'ops']
    attribute lookup. *)
Definition op_translations (mode : string) : option attr :=
  if decide (mode = "q") then Some Qops
  else if decide (mode = "a") then Some Sops
  else if decide (mode = "o") then Some Aops
  else if decide (mode = "h") then Some Hops
  else if decide (mode = "v") then Some Vops
  else None.

(** [Channel.setMode(added, mode, arg=None)] *)
Definition setMode (added : bool) (mode : string) (arg : option string) (c : t) : t :=
  if added then
    match arg with
    | Some a =>
        match op_translations mode with
        | Some at_ =>
            if negb (Py.inb (Py.lower a) (getattr at_ c))
            then setattr at_ (getattr at_ c ++ [Py.lower a]) c
            else if bool_decide (mode = "b") && negb (Py.inb (Py.lower a) (bans c))
            then with_bans (bans c ++ [Py.lower a]) c
            else c
        | None =>
            if bool_decide (mode = "b") && negb (Py.inb (Py.lower a) (bans c))
            then with_bans (bans c ++ [Py.lower a]) c
            else c
        end
    | None =>
        if negb (Py.contains mode (modes c))
        then with_modes (modes c +:+ mode) c
        else c
    end
  else
    match arg with
    | Some a =>
        match op_translations mode with
        | Some at_ =>
            if Py.inb (Py.lower a) (getattr at_ c)
            then setattr at_ (Py.remove (Py.lower a) (getattr at_ c)) c
            else if bool_decide (mode = "b") && Py.inb (Py.lower a) (bans c)
            then with_bans (Py.remove (Py.lower a) (bans c)) c
            else c
        | None =>
            if bool_decide (mode = "b") && Py.inb (Py.lower a) (bans c)
            then with_bans (Py.remove (Py.lower a) (bans c)) c
            else c
        end
    | None =>
        if Py.contains mode (modes c)
        then with_modes (Py.replace_del mode (modes c)) c
        else c
    end.

(** What [setMode] tests before it mutates: the flag is in the mode string
    (no argument), the lowercase argument is in the privilege list the letter
    translates to, or in the ban list for [b]. Any other letter that comes
    with an argument is never recorded. *)
Definition has_mode (mode : string) (arg : option string) (c : t) : bool :=
  match arg with
  | None => Py.contains mode (modes c)
  | Some a =>
      match op_translations mode with
      | Some at_ => Py.inb (Py.lower a) (getattr at_ c)
      | None => bool_decide (mode = "b") && Py.inb (Py.lower a) (bans c)
      end
  end.

End Channel.

(** ** Exceptions and the state-and-exception monad of the session methods *)

Inductive exn :=
| KeyError | IndexError | TypeError | UnboundLocalError | AssertionError
| PluginError | EventAlreadyExistsError | EventDoesNotExistError
| EventCallbackError | ImportError | AttributeError | NoCurrentExceptionError
| OtherError.

(** A method run from state [S] either returns a value or raises; both carry
    the state reached, since Python keeps the mutations made before a raise.
    [Hang] is the third possibility: the [while] of
    [EventManager._add_callback] found no unused identifier among the random
    draws the run was given. No [except] clause catches it. *)
Inductive res (S A : Type) :=
| Ok (a : A) (s : S)
| Raise (e : exn) (s : S)
| Hang (s : S).
Arguments Ok {S A} a s.
Arguments Raise {S A} e s.
Arguments Hang {S A} s.

Definition M (S A : Type) : Type := S -> res S A.

Definition ret {S A} (a : A) : M S A := fun s => Ok a s.
Definition raise {S A} (e : exn) : M S A := fun s => Raise e s.
Definition bind {S A B} (m : M S A) (k : A -> M S B) : M S B :=
  fun s => match m s with
           | Ok a s' => k a s'
           | Raise e s' => Raise e s'
           | Hang s' => Hang s'
           end.
Definition get {S} : M S S := fun s => Ok s s.
Definition put {S} (s : S) : M S unit := fun _ => Ok tt s.
Definition modify {S} (f : S -> S) : M S unit := fun s => Ok tt (f s).

(** [try: m except Exception: h] *)
Definition try_except {S A} (m : M S A) (h : exn -> M S A) : M S A :=
  fun s => match m s with
           | Ok a s' => Ok a s'
           | Raise e s' => h e s'
           | Hang s' => Hang s'
           end.

(** Running a method of a component [T] held in a field of [S]. *)
Definition lift {S T A} (proj : S -> T) (inj : T -> S -> S) (m : M T A) : M S A :=
  fun s => match m (proj s) with
           | Ok a t' => Ok a (inj t' s)
           | Raise e t' => Raise e (inj t' s)
           | Hang t' => Hang (inj t' s)
           end.

(** [d[k]] on a dict: [KeyError] when the key is absent. *)
Definition getitem {S K A} `{Lookup K A D} (d : D) (k : K) : M S A :=
  match d !! k with
  | Some a => ret a
  | None => raise KeyError
  end.

Declare Scope py_scope.
Delimit Scope py_scope with py.
Notation "x <- m ;; k" := (bind m (fun x => k))
  (at level 100, m at next level, right associativity) : py_scope.
Notation "m ;;; k" := (bind m (fun _ => k))
  (at level 100, right associativity) : py_scope.

Definition state_of {S A} (r : res S A) : S :=
  match r with Ok _ s => s | Raise _ s => s | Hang s => s end.

(** ** core.py: class ForkingDongles, the tables and their handlers *)

Module ForkingDongles.

(** [PREFIX] is [self.supported.getFeature('PREFIX')], the items
    mode -> (symbol, priority), and [None] when [hasFeature('PREFIX')] is
    false. [sent] collects the lines handed to [whois] and to
    [reactor.callLater(.., self.sendLine, ..)]. [next_oid] numbers the
    Channel objects as they are constructed. *)
Record t := mk {
  nickname : string;
  users : gmap string User.t;
  channels : gmap string Channel.t;
  reloads : nat;
  PREFIX : option (list (string * (string * nat)));
  sent : list string;
  next_oid : nat
}.

Definition with_users (f : gmap string User.t -> gmap string User.t) (s : t) : t :=
  mk (nickname s) (f (users s)) (channels s) (reloads s) (PREFIX s) (sent s) (next_oid s).

Definition with_channels (f : gmap string Channel.t -> gmap string Channel.t) (s : t) : t :=
  mk (nickname s) (users s) (f (channels s)) (reloads s) (PREFIX s) (sent s) (next_oid s).

Definition send (l : string) (s : t) : t :=
  mk (nickname s) (users s) (channels s) (reloads s) (PREFIX s) (sent s ++ [l]) (next_oid s).

Definition bump_oid (s : t) : t :=
  mk (nickname s) (users s) (channels s) (reloads s) (PREFIX s) (sent s) (S (next_oid s)).

Definition bump_reloads (s : t) : t :=
  mk (nickname s) (users s) (channels s) (S (reloads s)) (PREFIX s) (sent s) (next_oid s).

(** A [user] parameter is either a mask string or a User object. *)
Inductive user_arg := Mask (m : string) | Obj (u : User.t).

Definition as_User (a : user_arg) : User.t :=
  match a with
  | Mask m => User.init m
  | Obj u => u
  end.

Local Open Scope py_scope.

(** [ForkingDongles.addUser(user)] *)
Definition addUser (a : user_arg) : M t User.t :=
  fun s =>
    let u := as_User a in
    let u := User.with_is_self
               (bool_decide (Py.lower (User.nick u) = Py.lower (nickname s))) u in
    let k := Py.lower (User.nick u) in
    let s1 := match users s !! k with
              | None => send ("WHOIS " +:+ User.nick u) (with_users <[k := u]> s)
              | Some _ => s
              end in
    getitem (users s1) k s1.

(** [ForkingDongles.renameUser(user, new)] *)
Definition renameUser (a : user_arg) (new : string) : M t unit :=
  let u := as_User a in
  modify (with_users <[Py.lower new := u]>) ;;;
  s <- get ;;
  _ <- getitem (users s) (Py.lower (User.nick u)) ;;
  modify (with_users (delete (Py.lower (User.nick u)))) ;;;
  s <- get ;;
  u' <- getitem (users s) (Py.lower new) ;;
  modify (with_users <[Py.lower new := User.with_nick new u']>).

(** [ForkingDongles.removeUser(user)] *)
Definition removeUser (a : user_arg) : M t User.t :=
  fun s =>
    let u := as_User a in
    match users s !! Py.lower (User.nick u) with
    | Some u' => Ok u' (with_users (delete (Py.lower (User.nick u))) s)
    | None => Ok u s
    end.

(** [ForkingDongles.inChannel(channel)], on a channel name. *)
Definition inChannel (channel : string) (s : t) : bool :=
  bool_decide (is_Some (channels s !! Py.lower channel)).

(** [ForkingDongles.joined(channel)] *)
Definition joined (channel : string) : M t unit :=
  fun s =>
    let s1 := match channels s !! Py.lower channel with
              | None =>
                  bump_oid (with_channels
                              <[Py.lower channel := Channel.init (next_oid s) channel]> s)
              | Some _ => s
              end in
    Ok tt (send ("MODE " +:+ channel +:+ " b") (send ("MODE " +:+ channel) s1)).

(** [ForkingDongles.left(channel)] *)
Definition left (channel : string) : M t unit :=
  modify (with_channels (delete (Py.lower channel))).

(** [ForkingDongles.kickedFrom(channel, kicker, message)] *)
Definition kickedFrom (channel kicker message : string) : M t unit :=
  modify (with_channels (delete (Py.lower channel))).

(** [self.channels[channel.lower()].m(..)] for a mutating Channel method. *)
Definition on_channel (channel : string) (f : Channel.t -> Channel.t) : M t unit :=
  s <- get ;;
  c <- getitem (channels s) (Py.lower channel) ;;
  modify (with_channels <[Py.lower channel := f c]>).

(** [ForkingDongles.userJoined(user, channel)] *)
Definition userJoined (user channel : string) : M t unit :=
  u <- addUser (Mask user) ;;
  on_channel channel (Channel.addUser (User.nick u)).

(** [True in map(lambda channel: nick.lower() in channel.users,
    self.channels.values())] *)
Definition in_some_channel (nk : string) (s : t) : bool :=
  existsb (fun kc => Py.inb (Py.lower nk) (Channel.users kc.2))
          (map_to_list (channels s)).

(** [ForkingDongles.userLeft(user, channel)] *)
Definition userLeft (user channel : string) : M t unit :=
  s <- get ;;
  u <- getitem (users s) (Py.lower (User.nick (User.init user))) ;;
  on_channel channel (Channel.removeUser (User.nick u)) ;;;
  s <- get ;;
  if negb (in_some_channel (User.nick u) s)
  then _ <- removeUser (Obj u) ;; ret tt
  else ret tt.

(** [ForkingDongles.userQuit(user, message)]. The [map(..)] of its second
    line builds an iterator that nothing consumes: the lambda is never
    called, and no channel is touched. *)
Definition userQuit (user message : string) : M t unit :=
  _ <- removeUser (Mask user) ;;
  ret tt.

(** [ForkingDongles.userRenamed(old, new)]. As in [userQuit], the [map(..)]
    of the last line is never consumed. *)
Definition userRenamed (old new : string) : M t unit :=
  s <- get ;;
  u <- getitem (users s) (Py.lower old) ;;
  renameUser (Obj u) new.

(** [ForkingDongles.userKicked(user, channel, kicker, message)] *)
Definition userKicked (user channel kicker message : string) : M t unit :=
  s <- get ;;
  u <- getitem (users s) (Py.lower (User.nick (User.init user))) ;;
  on_channel channel (Channel.removeUser (User.nick u)) ;;;
  s <- get ;;
  if negb (in_some_channel (User.nick u) s)
  then _ <- removeUser (Obj u) ;; ret tt
  else ret tt.

(** The loop [for x in range(len(modes))] of [modeChanged], from index [x];
    [apply] is the [setMode] call on the tracked user or channel. *)
Fixpoint modeChanged_loop (apply : string -> option string -> M t unit)
    (x : nat) (modes : string) (args : list (option string)) : M t unit :=
  match modes with
  | EmptyString => ret tt
  | String m rest =>
      match args !! x with
      | None => raise IndexError
      | Some arg =>
          apply (String m EmptyString) arg ;;;
          modeChanged_loop apply (S x) rest args
      end
  end.

(** [ForkingDongles.modeChanged(user, channel, added, modes, args)] *)
Definition modeChanged (user : option string) (channel : string) (added : bool)
    (modes : string) (args : list (option string)) : M t unit :=
  s <- get ;;
  if negb (Py.startswith "#" channel) then
    if bool_decide (is_Some (users s !! Py.lower channel)) then
      modeChanged_loop
        (fun m arg =>
           s <- get ;;
           u <- getitem (users s) (Py.lower channel) ;;
           modify (with_users <[Py.lower channel := User.setMode added m arg u]>))
        0 modes args
    else ret tt
  else
    if bool_decide (is_Some (channels s !! Py.lower channel)) then
      modeChanged_loop
        (fun m arg => on_channel channel (Channel.setMode added m arg))
        0 modes args
    else ret tt.

(** The fallback table of [irc_RPL_NAMREPLY]. *)
Definition fallback_translation : gmap string string :=
  <["+" := "v"]> (<["%" := "h"]> (<["@" := "o"]> (<["&" := "a"]> (<["~" := "q"]> ∅)))).

(** [dict(map(lambda i: (i[1][0], i[0]), PREFIX.items()))]: a later item
    overrides an earlier one with the same symbol. *)
Definition prefix_translation (items : list (string * (string * nat))) : gmap string string :=
  foldl (fun d i => <[i.2.1 := i.1]> d) ∅ items.

Definition mode_translation (s : t) : gmap string string :=
  match PREFIX s with
  | None => fallback_translation
  | Some items => prefix_translation items
  end.

(** The loop [for nick in nicks.split()] of [irc_RPL_NAMREPLY]; returns the
    accumulated [modes] and [args]. *)
Fixpoint namreply_loop (mt : gmap string string) (channel : string)
    (nicks : list string) (modes : string) (args : list string)
    : M t (string * list string) :=
  match nicks with
  | [] => ret (modes, args)
  | nk :: rest =>
      match Py.head nk with
      | None => raise IndexError
      | Some h =>
          let '(modes', args', nk') :=
            match mt !! h with
            | Some m => (modes +:+ m, args ++ [Py.drop 1 nk], Py.drop 1 nk)
            | None => (modes, args, nk)
            end in
          _ <- addUser (Mask nk') ;;
          on_channel channel (Channel.addUser nk') ;;;
          namreply_loop mt channel rest modes' args'
      end
  end.

(** [ForkingDongles.irc_RPL_NAMREPLY(prefix, params)] *)
Definition irc_RPL_NAMREPLY (prefix : string) (params : list string) : M t unit :=
  match rev params with
  | nicks :: channel :: _ =>
      s <- get ;;
      r <- namreply_loop (mode_translation s) channel (Py.split nicks) "" [] ;;
      modeChanged None channel true r.1 (Some <$> r.2)
  | _ => raise IndexError
  end.

(** [ForkingDongles.irc_RPL_WHOISUSER(prefix, params)] *)
Definition irc_RPL_WHOISUSER (prefix : string) (params : list string) : M t unit :=
  match params with
  | _ :: n :: u :: h :: _ =>
      let w := User.init (n +:+ "!" +:+ u +:+ "@" +:+ h) in
      let k := Py.lower (User.nick w) in
      modify (with_users (fun us =>
        match us !! k with
        | None => <[k := w]> us
        | Some old =>
            <[k := User.mk (User.nick old) (User.user w) (User.host w)
                           (User.modes old) (User.is_self old)]> us
        end))
  | _ => raise IndexError
  end.

(** [irc_RPL_WHOISOPERATOR], [irc_330] and [irc_671] with their flag. *)
Definition whois_flag (flag : string) (params : list string) : M t unit :=
  match params !! 1%nat with
  | None => raise IndexError
  | Some n =>
      modify (with_users (fun us =>
        match us !! Py.lower n with
        | Some u => <[Py.lower n := User.setMode true flag None u]> us
        | None => us
        end))
  end.

Definition irc_RPL_WHOISOPERATOR (prefix : string) := whois_flag "o".
Definition irc_330 (prefix : string) := whois_flag "r".
Definition irc_671 (prefix : string) := whois_flag "z".

(** [ForkingDongles.irc_RPL_BANLIST(prefix, params)]: [params[1]],
    [params[2]] and [params[3:].pop(0)] must exist. *)
Definition irc_RPL_BANLIST (prefix : string) (params : list string) : M t unit :=
  match params with
  | _ :: channel :: mask :: user :: _ =>
      modeChanged (Some user) channel true "b" [Some mask]
  | _ => raise IndexError
  end.

(** The PREFIX table of the [ServerSupportedFeatures] object that Twisted's
    [IRCClient.connectionMade] puts in [self.supported]: the parse of
    [(ovh)@+%]. It stays there until the server sends another one. *)
Definition default_PREFIX : list (string * (string * nat)) :=
  [("o", ("@", 0)); ("v", ("+", 1)); ("h", ("%", 2))].

(** What a [PREFIX] token of an ISUPPORT line does to [self.supported]:
    the table is replaced, or withdrawn ([None]). *)
Definition set_PREFIX (p : option (list (string * (string * nat)))) (s : t) : t :=
  mk (nickname s) (users s) (channels s) (reloads s) p (sent s) (next_oid s).

(** The tables when [signedOn] returns on a new connection: [signedOn] has
    emptied [self.users] and [self.channels], and does not touch
    [self.supported], which is as [connectionMade] created it. *)
Definition signedOn (nick : string) : t := mk nick ∅ ∅ 0 (Some default_PREFIX) [] 0.

End ForkingDongles.

(** ** Insertion-ordered dictionaries

    A Python [dict] iterates its keys in the order of their first insertion;
    assigning to a key already present keeps its place, and a key deleted and
    inserted again goes to the end. *)

Module OD.

Section ordered_dict.
Context {K V : Type} `{EqDecision K}.

Fixpoint get (k : K) (d : list (K * V)) : option V :=
  match d with
  | [] => None
  | (k', v) :: r => if decide (k = k') then Some v else get k r
  end.

Definition mem (k : K) (d : list (K * V)) : bool :=
  match get k d with Some _ => true | None => false end.

Fixpoint set (k : K) (v : V) (d : list (K * V)) : list (K * V) :=
  match d with
  | [] => [(k, v)]
  | (k', v') :: r => if decide (k = k') then (k, v) :: r else (k', v') :: set k v r
  end.

Fixpoint del (k : K) (d : list (K * V)) : list (K * V) :=
  match d with
  | [] => []
  | (k', v') :: r => if decide (k = k') then r else (k', v') :: del k r
  end.

End ordered_dict.

End OD.

(** ** plugin.py: the Event enumeration, callables and the plugin records *)

Module Event.

Inductive t :=
| RAW | INVITE | PRIVMSG | NOTICE | NICK | MODE | TOPIC | JOIN | PART | KICK
| QUIT | STOP | STOP_ALL.

#[global] Instance eq_dec : EqDecision t.
Proof. solve_decision. Defined.

End Event.

(** An event name is a [str] or a member of [Event] ([EventManager.register]
    accepts both). *)
Inductive ename := EName (e : Event.t) | SName (s : string).

#[export] Instance ename_eq_dec : EqDecision ename.
Proof. solve_decision. Defined.

(** What a handler returns. *)
Inductive value := VNone | VEvent (e : Event.t) | VObj (n : nat).

#[export] Instance value_eq_dec : EqDecision value.
Proof. solve_decision. Defined.

(** The objects that reach a blacklist or the [channel] parameter of
    [itercommands]. [==] compares strings by content and Channel objects by
    identity; a string never equals a Channel. *)
Inductive obj := OStr (s : string) | OChannel (c : Channel.t).

Definition py_eq (a b : obj) : bool :=
  match a, b with
  | OStr x, OStr y => bool_decide (x = y)
  | OChannel c, OChannel d => bool_decide (Channel.oid c = Channel.oid d)
  | _, _ => false
  end.

(** [x in l] on a list of objects. *)
Definition py_in (x : obj) (l : list obj) : bool := existsb (py_eq x) l.

(** The positional arguments of a handler call. *)
Inductive arg :=
| ABot | AStr (s : string) | AUser (u : User.t) | AObj (o : obj) | AName (n : ename).

(** How a handler call ends: with a value, or with one of the exceptions the
    firing loops tell apart. [from_defer] says whether the innermost frame of
    an [AssertionError] is in [defer.py], which is what [_deferassertion]
    looks at. *)
Inductive outcome :=
| Returns (v : value)
| RaisesNeedsArgs
| RaisesRejected
| RaisesAssertion (from_defer : bool)
| RaisesOther.

(** A function or bound method as the managers see it: the attributes they
    test and the effect of calling it. A handler works on the session tables;
    one that loads plugins or registers callbacks while a firing loop runs is
    outside this model. [c_argspec] is [(len(argspec.args),
    bool(argspec.varargs))], [None] when [inspect.getargspec] raises
    [TypeError]. [c_regex] is [re.search(self.regex, message)] as a test. *)
Record callable := {
  c_name : string;
  c_callable : bool;
  c_ismethod : bool;
  c_argspec : option (nat * bool);
  c_events : option (list ename);
  c_commands : option (list string);
  c_regex : option (string -> bool);
  c_call : list arg -> ForkingDongles.t -> outcome * ForkingDongles.t
}.

(** One handler call, as a firing loop makes it: [inv_owner] is the plugin
    identifier (command routing) or the callback identifier (event firing),
    [inv_outcome] how the call ended. *)
Record invocation := {
  inv_owner : string;
  inv_name : string;
  inv_args : list arg;
  inv_outcome : outcome
}.

Module Plugin.

(** The optional [close] method of an instance: [close_args] is
    [len(getargspec(instance.close).args)]. *)
Record closehook := {
  close_args : nat;
  close_call : M ForkingDongles.t unit
}.

(** A handler instance: [members] is the list of methods
    [inspect.getmembers(instance, predicate=inspect.ismethod)] returns. *)
Record instance_t := {
  members : list callable;
  close : option closehook
}.

(** The [setup] attribute of a module, when it is a function. *)
Record setup_t := {
  setup_args : nat;
  setup_call : M ForkingDongles.t instance_t
}.

Record module_t := {
  mod_name : string;
  setup : option setup_t
}.

(** The record [load] stores in [self.plugins]. [callback_ids] is a reference
    to the [defaultdict(list)] built by [_register_plugin_callbacks]: two
    records can hold the same dictionary. *)
Record t := mk {
  name : string;
  module : module_t;
  instance : instance_t;
  commands : list callable;
  callbacks : list callable;
  callback_ids : nat;
  blacklist : list obj
}.

Definition with_blacklist (l : list obj) (p : t) : t :=
  mk (name p) (module p) (instance p) (commands p) (callbacks p) (callback_ids p) l.

End Plugin.

(** The fields of an EventManager; [draws] is the sequence of identifiers the
    coming calls of [_generate_id] return. *)
Record event_manager_t := {
  events : list (ename * Z);
  callbacks : list (ename * list (string * callable));
  draws : list string
}.

(** The fields of a PluginManager, with the store of the callback-identifier
    dictionaries its records refer to. *)
Record plugin_manager_t := {
  plugins : list (string * Plugin.t);
  ids_store : gmap nat (list (ename * list string));
  ids_next : nat
}.

(** The session object as the managers reach it through [self.bot]: the
    tables, the two managers, and the log of handler calls made so far. *)
Record bot_t := {
  core : ForkingDongles.t;
  event_manager : event_manager_t;
  plugin_manager : plugin_manager_t;
  invoked : list invocation
}.

Definition with_core (c : ForkingDongles.t) (b : bot_t) : bot_t :=
  Build_bot_t c (event_manager b) (plugin_manager b) (invoked b).
Definition with_event_manager (e : event_manager_t) (b : bot_t) : bot_t :=
  Build_bot_t (core b) e (plugin_manager b) (invoked b).
Definition with_plugin_manager (p : plugin_manager_t) (b : bot_t) : bot_t :=
  Build_bot_t (core b) (event_manager b) p (invoked b).

Definition on_core {A} : M ForkingDongles.t A -> M bot_t A := lift core with_core.
Definition on_em {A} : M event_manager_t A -> M bot_t A :=
  lift event_manager with_event_manager.
Definition on_pm {A} : M plugin_manager_t A -> M bot_t A :=
  lift plugin_manager with_plugin_manager.

(** Calling handler [c] on behalf of [owner]: the call is logged, the tables
    take the handler's effect, and the outcome is handed to the loop. *)
Definition call (owner : string) (c : callable) (args : list arg) (b : bot_t)
    : outcome * bot_t :=
  let '(o, s') := c_call c args (core b) in
  (o, Build_bot_t s' (event_manager b) (plugin_manager b)
        (invoked b ++ [Build_invocation owner (c_name c) args o])).

(** [_deferassertion()], run inside an [except AssertionError] clause. When
    the innermost frame is not in [defer.py] it executes [raise err] with
    [err] the traceback object, which is a [TypeError]. *)
Definition _deferassertion {S} (from_defer : bool) : M S unit :=
  if from_defer then ret tt else raise TypeError.

(** ** plugin.py: class EventManager *)

Module EventManager.

Local Open Scope py_scope.

Definition with_callbacks (c : list (ename * list (string * callable)))
    (em : event_manager_t) : event_manager_t :=
  Build_event_manager_t (events em) c (draws em).

(** [EventManager.register(name, arglen)] *)
Definition register (name : ename) (arglen : Z) : M event_manager_t unit :=
  fun em =>
    if OD.mem name (events em) then Raise EventAlreadyExistsError em
    else Ok tt (Build_event_manager_t
                  (OD.set name arglen (events em))
                  (if OD.mem name (callbacks em) then callbacks em
                   else OD.set name [] (callbacks em))
                  (draws em)).

(** [EventManager.unregister(name)] *)
Definition unregister (name : ename) : M event_manager_t unit :=
  fun em =>
    if negb (OD.mem name (events em)) then Raise EventDoesNotExistError em
    else
      let em1 := Build_event_manager_t (OD.del name (events em)) (callbacks em) (draws em) in
      if OD.mem name (callbacks em1) then Ok tt (with_callbacks (OD.del name (callbacks em1)) em1)
      else Raise KeyError em1.

(** The [while] of [_add_callback]: the first draw that is not in [taken],
    with the draws left. *)
Fixpoint fresh_id (taken : list string) (ds : list string) : option (string * list string) :=
  match ds with
  | [] => None
  | d :: r => if Py.inb d taken then fresh_id taken r else Some (d, r)
  end.

(** [EventManager._add_callback(name, callback)] *)
Definition _add_callback (name : ename) (callback : callable) : M event_manager_t string :=
  fun em =>
    let cur := default [] (OD.get name (callbacks em)) in
    match fresh_id cur.*1 (draws em) with
    | None => Hang (Build_event_manager_t (events em) (callbacks em) [])
    | Some (callback_id, rest) =>
        Ok callback_id
           (Build_event_manager_t (events em)
              (OD.set name (OD.set callback_id callback cur) (callbacks em)) rest)
    end.

(** [EventManager.register_callback(name, callback)] *)
Definition register_callback (name : ename) (callback : callable) : M event_manager_t string :=
  fun em =>
    if negb (c_callable callback) then Raise EventCallbackError em
    else
      match OD.get name (events em) with
      | None => _add_callback name callback em
      | Some narglen =>
          match c_argspec callback with
          | None => Raise TypeError em
          | Some (arglen, varargs) =>
              if negb (bool_decide (Z.of_nat arglen = narglen)) && negb varargs
              then Raise EventCallbackError em
              else _add_callback name callback em
          end
      end.

(** [EventManager.unregister_callback(name, callback_id)] *)
Definition unregister_callback (name : ename) (callback_id : string) : M event_manager_t unit :=
  fun em =>
    match OD.get name (callbacks em) with
    | None => Ok tt em
    | Some cbs =>
        if negb (OD.mem callback_id cbs) then Ok tt em
        else Ok tt (with_callbacks (OD.set name (OD.del callback_id cbs) (callbacks em)) em)
    end.

(** [result in [Event.STOP, Event.STOP_ALL]] *)
Definition is_stop (v : value) : bool :=
  bool_decide (v = VEvent Event.STOP) || bool_decide (v = VEvent Event.STOP_ALL).

(** The arguments [fire] calls a callback with: a bound method takes
    [(name, *params)], anything else [(self.bot, name, *params)]. *)
Definition fire_args (name : ename) (params : list arg) (callback : callable) : list arg :=
  if c_ismethod callback then AName name :: params else ABot :: AName name :: params.

(** The outcomes after which the loop of [fire] goes on to the next callback:
    all but a stop sentinel and an [AssertionError] raised outside [defer.py]. *)
Definition carries_on (o : outcome) : bool :=
  match o with
  | Returns v => negb (is_stop v)
  | RaisesAssertion from_defer => from_defer
  | RaisesNeedsArgs | RaisesRejected | RaisesOther => true
  end.

(** The [for callback_id, callback in callbacks.items()] loop of [fire]. *)
Fixpoint fire_loop (name : ename) (params : list arg)
    (cbs : list (string * callable)) (result : value) : M bot_t value :=
  match cbs with
  | [] => ret result
  | (callback_id, callback) :: rest =>
      fun b =>
        let '(o, b') := call callback_id callback (fire_args name params callback) b in
        match o with
        | Returns v =>
            if is_stop v then Ok v b' else fire_loop name params rest v b'
        | RaisesRejected => fire_loop name params rest result b'
        | RaisesAssertion d =>
            (_deferassertion d ;;; fire_loop name params rest result) b'
        | RaisesNeedsArgs | RaisesOther => fire_loop name params rest result b'
        end
  end.

(** [EventManager.fire(name, *params)]. [self.callbacks] is a [defaultdict]:
    reading a missing key inserts an empty dictionary. *)
Definition fire (name : ename) (params : list arg) : M bot_t value :=
  fun b =>
    let em := event_manager b in
    if negb (OD.mem name (events em)) then Raise EventDoesNotExistError b
    else
      match OD.get name (callbacks em) with
      | Some cbs => fire_loop name params cbs VNone b
      | None =>
          fire_loop name params [] VNone
            (with_event_manager (with_callbacks (OD.set name [] (callbacks em)) em) b)
      end.

End EventManager.

(** ** plugin.py: class PluginManager *)

Module PluginManager.

Local Open Scope py_scope.

Definition with_plugins (f : list (string * Plugin.t) -> list (string * Plugin.t))
    (pm : plugin_manager_t) : plugin_manager_t :=
  Build_plugin_manager_t (f (plugins pm)) (ids_store pm) (ids_next pm).

Definition with_store (f : gmap nat (list (ename * list string)) -> gmap nat (list (ename * list string)))
    (pm : plugin_manager_t) : plugin_manager_t :=
  Build_plugin_manager_t (plugins pm) (f (ids_store pm)) (ids_next pm).

(** A new dictionary object holding [d]. *)
Definition alloc_ids (d : list (ename * list string)) : M plugin_manager_t nat :=
  fun pm =>
    Ok (ids_next pm)
       (Build_plugin_manager_t (plugins pm) (<[ids_next pm := d]> (ids_store pm))
          (S (ids_next pm))).

(** The dictionary a reference points to. *)
Definition ids_at (l : nat) (pm : plugin_manager_t) : list (ename * list string) :=
  default [] (ids_store pm !! l).

(** [self.plugins[plugin]] *)
Definition the_plugin (plugin : string) : M bot_t Plugin.t :=
  fun b => match OD.get plugin (plugins (plugin_manager b)) with
           | Some p => Ok p b
           | None => Raise KeyError b
           end.

(** [PluginManager._load_module(module)]: [disk] is what importing
    [plugins.<name>] yields at the time of the call, [None] when the import
    raises. A module object is reloaded from its own name. *)
Definition _load_module (disk : string -> option Plugin.module_t)
    (module : string + Plugin.module_t) : M bot_t Plugin.module_t :=
  let found := match module with
               | inl n => disk n
               | inr m => disk (Plugin.mod_name m)
               end in
  match found with
  | Some m => ret m
  | None => raise ImportError
  end.

(** [PluginManager._load_plugin(module)] *)
Definition _load_plugin (module : Plugin.module_t) : M bot_t Plugin.instance_t :=
  match Plugin.setup module with
  | None => raise PluginError
  | Some st =>
      match Plugin.setup_args st with
      | 0 | 1 => on_core (Plugin.setup_call st)
      | _ => raise PluginError
      end
  end.

(** The inner loop of [_register_plugin_callbacks], over [callback.events]. *)
Fixpoint register_events (callback : callable) (names : list ename)
    (callback_ids : list (ename * list string)) : M bot_t (list (ename * list string)) :=
  match names with
  | [] => ret callback_ids
  | name :: rest =>
      callback_id <- on_em (EventManager.register_callback name callback) ;;
      register_events callback rest
        (OD.set name (default [] (OD.get name callback_ids) ++ [callback_id]) callback_ids)
  end.

(** The outer loop of [_register_plugin_callbacks]. *)
Fixpoint register_callbacks (callbacks : list callable)
    (callback_ids : list (ename * list string)) : M bot_t (list (ename * list string)) :=
  match callbacks with
  | [] => ret callback_ids
  | callback :: rest =>
      match c_events callback with
      | None => raise AttributeError
      | Some names =>
          callback_ids' <- register_events callback names callback_ids ;;
          register_callbacks rest callback_ids'
      end
  end.

(** [PluginManager._register_plugin_callbacks(callbacks)]; returns the
    reference to the dictionary it built. *)
Definition _register_plugin_callbacks (callbacks : list callable) : M bot_t nat :=
  callback_ids <- register_callbacks callbacks [] ;;
  on_pm (alloc_ids callback_ids).

(** The loop [for callback_id in plugin['callback_ids'][name]] of
    [_unregister_plugin_callbacks]. A list iterator keeps an index [i] into
    the live list, and the body removes an element of that list: the element
    that slides into position [i - 1] is never visited. [fuel] bounds the
    number of rounds; the length of the list at entry is enough. *)
Fixpoint unregister_ids (fuel : nat) (i : nat) (l : nat) (name : ename) : M bot_t unit :=
  match fuel with
  | O => ret tt
  | S fuel' =>
      b <- get ;;
      let ids := default [] (OD.get name (ids_at l (plugin_manager b))) in
      match ids !! i with
      | None => ret tt
      | Some callback_id =>
          on_em (EventManager.unregister_callback name callback_id) ;;;
          on_pm (modify (with_store (fun st =>
                   <[l := OD.set name (Py.remove callback_id ids)
                            (default [] (st !! l))]> st))) ;;;
          unregister_ids fuel' (S i) l name
      end
  end.

(** The loop [for name in plugin['callback_ids'].keys()]. *)
Fixpoint unregister_names (l : nat) (names : list ename) : M bot_t unit :=
  match names with
  | [] => ret tt
  | name :: rest =>
      b <- get ;;
      unregister_ids
        (length (default [] (OD.get name (ids_at l (plugin_manager b))))) 0 l name ;;;
      unregister_names l rest
  end.

(** [PluginManager._unregister_plugin_callbacks(plugin)] *)
Definition _unregister_plugin_callbacks (plugin : string) : M bot_t unit :=
  p <- the_plugin plugin ;;
  b <- get ;;
  unregister_names (Plugin.callback_ids p)
    (ids_at (Plugin.callback_ids p) (plugin_manager b)).*1.

(** [PluginManager._unload_plugin(plugin)] *)
Definition _unload_plugin (plugin : string) : M bot_t unit :=
  p <- the_plugin plugin ;;
  match Plugin.close (Plugin.instance p) with
  | None => ret tt
  | Some h =>
      match Plugin.close_args h with
      | 1 | 2 => on_core (Plugin.close_call h)
      | _ => raise PluginError
      end
  end.

(** [PluginManager._get_plugin_commands(instance)] *)
Definition _get_plugin_commands (instance : Plugin.instance_t) : list callable :=
  filter (fun m => c_callable m = true ∧ (is_Some (c_commands m) ∨ is_Some (c_regex m)))
         (Plugin.members instance).

(** [PluginManager._get_plugin_callbacks(instance)] *)
Definition _get_plugin_callbacks (instance : Plugin.instance_t) : list callable :=
  filter (fun m => c_callable m = true ∧ is_Some (c_events m)) (Plugin.members instance).

(** [PluginManager.itercommands(channel=None)], the commands in the order
    the generator yields them, each with the key of the record it came from
    (the [name] of the [for name, plugin in self.plugins.items()] loop). *)
Definition itercommands (channel : option obj) (pm : plugin_manager_t)
    : list (string * callable) :=
  flat_map (fun np : string * Plugin.t =>
              if match channel with
                 | Some ch => py_in ch (Plugin.blacklist np.2)
                 | None => false
                 end
              then []
              else map (pair np.1) (Plugin.commands np.2))
           (plugins pm).

(** [PluginManager.unload] (variadic in Python). For an identifier that is
    not loaded the method calls [log.err()] outside any [except] clause:
    Twisted builds a [Failure] from the current exception, there is none,
    and [NoCurrentExceptionError] is raised before the identifier is
    appended to [failed_plugins]. *)
Fixpoint unload_loop (todo : list string) (failed_plugins : list string)
    : M bot_t (list string) :=
  match todo with
  | [] => ret failed_plugins
  | plugin :: rest =>
      b <- get ;;
      if negb (OD.mem plugin (plugins (plugin_manager b)))
      then raise NoCurrentExceptionError
      else
        try_except (_unregister_plugin_callbacks plugin) (fun _ => ret tt) ;;;
        closed <- try_except (_unload_plugin plugin ;;; ret true) (fun _ => ret false) ;;
        _ <- the_plugin plugin ;;
        on_pm (modify (with_plugins (OD.del plugin))) ;;;
        unload_loop rest (if closed : bool then failed_plugins else failed_plugins ++ [plugin])
  end.

Definition unload (todo : list string) : M bot_t (list string) := unload_loop todo [].

(** The body of [load]'s loop. [callback_ids] is the local variable of that
    name: unbound ([None]) until a registration has succeeded during this
    call, and not reset between two rounds. *)
Fixpoint load_loop (disk : string -> option Plugin.module_t) (todo : list string)
    (failed_plugins : list string) (callback_ids : option nat) : M bot_t (list string) :=
  match todo with
  | [] => ret failed_plugins
  | plugin :: rest =>
      b <- get ;;
      let reload_flag := OD.mem plugin (plugins (plugin_manager b)) in
      imported <-
        try_except
          (name <- (if reload_flag then
                      try_except (_unload_plugin plugin) (fun _ => ret tt) ;;;
                      p <- the_plugin plugin ;;
                      ret (inr (Plugin.module p))
                    else ret (inl plugin)) ;;
           module <- _load_module disk name ;;
           ret (Some module))
          (fun _ => ret None) ;;
      match imported with
      | None => load_loop disk rest (failed_plugins ++ [plugin]) callback_ids
      | Some module =>
          set_up <- try_except (i <- _load_plugin module ;; ret (Some i))
                               (fun _ => ret None) ;;
          match set_up with
          | None => load_loop disk rest (failed_plugins ++ [plugin]) callback_ids
          | Some instance =>
              let commands := _get_plugin_commands instance in
              let callbacks := _get_plugin_callbacks instance in
              registered <- try_except
                              (l <- _register_plugin_callbacks callbacks ;; ret (Some l))
                              (fun _ => ret None) ;;
              let failed_plugins' := match registered with
                                     | Some _ => failed_plugins
                                     | None => failed_plugins ++ [plugin]
                                     end in
              let callback_ids' := match registered with
                                   | Some l => Some l
                                   | None => callback_ids
                                   end in
              b <- get ;;
              (if OD.mem plugin (plugins (plugin_manager b))
               then _ <- unload [plugin] ;; ret tt
               else ret tt) ;;;
              match callback_ids' with
              | None => raise UnboundLocalError
              | Some l =>
                  on_pm (modify (with_plugins
                    (OD.set plugin (Plugin.mk plugin module instance commands callbacks l [])))) ;;;
                  (if reload_flag then on_core (modify ForkingDongles.bump_reloads)
                   else ret tt) ;;;
                  load_loop disk rest failed_plugins' callback_ids'
              end
          end
      end
  end.

(** [PluginManager.load] (variadic in Python) *)
Definition load (disk : string -> option Plugin.module_t) (todo : list string)
    : M bot_t (list string) :=
  load_loop disk todo [] None.

(** [PluginManager.blacklist(plugin, *channels)] *)
Definition blacklist (plugin : string) (channels : list obj) : M bot_t bool :=
  b <- get ;;
  match OD.get plugin (plugins (plugin_manager b)) with
  | None => ret false
  | Some p =>
      on_pm (modify (with_plugins
        (OD.set plugin (Plugin.with_blacklist (Plugin.blacklist p ++ channels) p)))) ;;;
      ret true
  end.

(** [l.remove(x)] on a list of objects, under its [x in l] guard. *)
Fixpoint remove_obj (x : obj) (l : list obj) : list obj :=
  match l with
  | [] => []
  | y :: r => if py_eq y x then r else y :: remove_obj x r
  end.

(** The loop of [unblacklist]. *)
Fixpoint unblacklist_loop (channels : list obj) (bl : list obj) (not_blacklisted : list obj)
    : list obj * list obj :=
  match channels with
  | [] => (bl, not_blacklisted)
  | channel :: rest =>
      if negb (py_in channel bl)
      then unblacklist_loop rest bl (not_blacklisted ++ [channel])
      else unblacklist_loop rest (remove_obj channel bl) not_blacklisted
  end.

(** [PluginManager.unblacklist(plugin, *channels)]; [None] is the [False]
    it returns for an unknown plugin. *)
Definition unblacklist (plugin : string) (channels : list obj) : M bot_t (option (list obj)) :=
  b <- get ;;
  match OD.get plugin (plugins (plugin_manager b)) with
  | None => ret None
  | Some p =>
      let '(bl, not_blacklisted) := unblacklist_loop channels (Plugin.blacklist p) [] in
      on_pm (modify (with_plugins (OD.set plugin (Plugin.with_blacklist bl p)))) ;;;
      ret (Some not_blacklisted)
  end.

(** The [for command in self.itercommands(channel)] loop of [fire_command]. *)
Fixpoint fire_command_loop (cmd params : string) (user : User.t) (channel : obj)
    (message : string) (cmds : list (string * callable)) (result : value) : M bot_t value :=
  match cmds with
  | [] => ret result
  | (owner, command) :: rest =>
      let continue := fire_command_loop cmd params user channel message rest in
      let self_bot := if c_ismethod command then [] else [ABot] in
      if match c_commands command with Some cs => Py.inb cmd cs | None => false end then
        fun b =>
          let '(o, b') := call owner command
                            (self_bot ++ [AStr cmd; AUser user; AObj channel; AStr params]) b in
          match o with
          | Returns v =>
              if bool_decide (v = VEvent Event.STOP_ALL) then Ok v b' else continue v b'
          | RaisesNeedsArgs => continue result b'
          | RaisesAssertion d => (_deferassertion d ;;; continue result) b'
          | RaisesRejected | RaisesOther => continue result b'
          end
      else if match c_regex command with Some re => re message | None => false end then
        fun b =>
          let '(o, b') := call owner command
                            (self_bot ++ [AUser user; AObj channel; AStr message]) b in
          match o with
          | Returns v =>
              if bool_decide (v = VEvent Event.STOP_ALL) then Ok v b' else continue v b'
          | RaisesAssertion d => (_deferassertion d ;;; continue result) b'
          | RaisesNeedsArgs | RaisesRejected | RaisesOther => continue result b'
          end
      else continue result
  end.

(** [PluginManager.fire_command(user, channel, message)] *)
Definition fire_command (user : User.t) (channel : obj) (message : string) : M bot_t value :=
  fun b =>
    let '(cmd, _, params) := Py.partition " " message in
    fire_command_loop cmd params user channel message
      (itercommands (Some channel) (plugin_manager b)) VNone b.

End PluginManager.

(** ** core.py: the message handler that drives both firing loops *)

Module Dispatch.

Local Open Scope py_scope.

(** [ForkingDongles.privmsg(user, channel, message)] *)
Definition privmsg (user channel message : string) : M bot_t unit :=
  b <- get ;;
  let lnick := Py.lower (Py.partition "!" user).1.1 in
  let u := match ForkingDongles.users (core b) !! lnick with
           | Some u => u
           | None => User.init user
           end in
  ch <- (match ForkingDongles.channels (core b) !! Py.lower channel with
         | Some c => ret c
         | None =>
             on_core (modify ForkingDongles.bump_oid) ;;;
             ret (Channel.init (ForkingDongles.next_oid (core b)) (User.nick u))
         end) ;;
  result <- PluginManager.fire_command u (OChannel ch) message ;;
  if bool_decide (result = VEvent Event.STOP_ALL) then ret tt
  else _ <- EventManager.fire (EName Event.PRIVMSG)
              [AUser u; AObj (OChannel ch); AStr message] ;;
       ret tt.


End Dispatch.

(** ** Well-formed tables

    What the handlers of [core.py] maintain: a user is filed under the
    lowercase of its own nick, and no membership list holds a nick twice
    ([Channel.addUser] tests before it appends). *)

Definition users_wf (s : ForkingDongles.t) : Prop :=
  forall k u, ForkingDongles.users s !! k = Some u -> k = Py.lower (User.nick u).

Definition channels_wf (s : ForkingDongles.t) : Prop :=
  forall k c, ForkingDongles.channels s !! k = Some c -> NoDup (Channel.users c).

Definition tables_wf (s : ForkingDongles.t) : Prop := users_wf s /\ channels_wf s.

(** [nk] is in the membership of a tracked channel other than [channel]. *)
Definition in_other_channel (nk channel : string) (s : ForkingDongles.t) : Prop :=
  exists k c, k <> Py.lower channel /\ ForkingDongles.channels s !! k = Some c
              /\ Py.lower nk ∈ Channel.users c.

(** A method that returns normally, maps the Channel filed under [channel]
    through [f], leaves the other channels and the prefix table alone, and
    whose result satisfies [Q]. *)
Definition chan_run {A} (m : M ForkingDongles.t A) (channel : string)
    (f : Channel.t -> Channel.t) (Q : A -> Prop) : Prop :=
  forall s c, ForkingDongles.channels s !! Py.lower channel = Some c ->
    exists a s', m s = Ok a s' /\ Q a
      /\ ForkingDongles.channels s' = <[Py.lower channel := f c]> (ForkingDongles.channels s)
      /\ ForkingDongles.PREFIX s' = ForkingDongles.PREFIX s.

(** ** The protocol events that reach the tables

    One constructor per handler of [core.py] that Twisted calls with what the
    server sent, and one for a [PREFIX] token of an ISUPPORT line, which
    Twisted stores in [self.supported]; [handle] runs the handler, and [run]
    a sequence of them, each on the tables the previous one left (a handler
    that raises keeps what it had written). *)

Inductive handler :=
| On_joined (channel : string)
| On_left (channel : string)
| On_kickedFrom (channel kicker message : string)
| On_userJoined (user channel : string)
| On_userLeft (user channel : string)
| On_userQuit (user message : string)
| On_userRenamed (old new : string)
| On_userKicked (user channel kicker message : string)
| On_modeChanged (user : option string) (channel : string) (added : bool)
    (modes : string) (args : list (option string))
| On_NAMREPLY (prefix : string) (params : list string)
| On_BANLIST (prefix : string) (params : list string)
| On_WHOISUSER (prefix : string) (params : list string)
| On_WHOISOPERATOR (prefix : string) (params : list string)
| On_330 (prefix : string) (params : list string)
| On_671 (prefix : string) (params : list string)
| On_ISUPPORT_PREFIX (table : option (list (string * (string * nat)))).

Definition handle (h : handler) : M ForkingDongles.t unit :=
  match h with
  | On_joined c => ForkingDongles.joined c
  | On_left c => ForkingDongles.left c
  | On_kickedFrom c k m => ForkingDongles.kickedFrom c k m
  | On_userJoined u c => ForkingDongles.userJoined u c
  | On_userLeft u c => ForkingDongles.userLeft u c
  | On_userQuit u m => ForkingDongles.userQuit u m
  | On_userRenamed o n => ForkingDongles.userRenamed o n
  | On_userKicked u c k m => ForkingDongles.userKicked u c k m
  | On_modeChanged u c a ms args => ForkingDongles.modeChanged u c a ms args
  | On_NAMREPLY p ps => ForkingDongles.irc_RPL_NAMREPLY p ps
  | On_BANLIST p ps => ForkingDongles.irc_RPL_BANLIST p ps
  | On_WHOISUSER p ps => ForkingDongles.irc_RPL_WHOISUSER p ps
  | On_WHOISOPERATOR p ps => ForkingDongles.irc_RPL_WHOISOPERATOR p ps
  | On_330 p ps => ForkingDongles.irc_330 p ps
  | On_671 p ps => ForkingDongles.irc_671 p ps
  | On_ISUPPORT_PREFIX table => modify (ForkingDongles.set_PREFIX table)
  end.

Definition run (hs : list handler) (s : ForkingDongles.t) : ForkingDongles.t :=
  foldl (fun s h => state_of (handle h s)) s hs.

(** A method that takes well-formed tables to well-formed tables, however
    it ends. *)
Definition keeps_wf {A} (m : M ForkingDongles.t A) : Prop :=
  forall s, tables_wf s -> tables_wf (state_of (m s)).

(** What a part or a kick of the tracked user [u] from the tracked channel
    [channel], holding Channel [c] in state [s], must have done when the
    handler run [r] is over. *)
Definition leaves_channel (r : res ForkingDongles.t unit) (u : User.t) (c : Channel.t)
    (channel : string) (s : ForkingDongles.t) : Prop :=
  exists s', r = Ok tt s'
    /\ (Py.lower (User.nick u) ∉ Channel.users (Channel.removeUser (User.nick u) c))
    /\ ForkingDongles.channels s' !! Py.lower channel
         = Some (Channel.removeUser (User.nick u) c)
    /\ (in_other_channel (User.nick u) channel s ->
        ForkingDongles.users s' !! Py.lower (User.nick u) = Some u)
    /\ (~ in_other_channel (User.nick u) channel s ->
        ForkingDongles.users s' !! Py.lower (User.nick u) = None).

(** The callbacks registered for [name], in the order [fire] visits them. *)
Definition registered (name : ename) (b : bot_t) : list (string * callable) :=
  default [] (OD.get name (callbacks (event_manager b))).

(** What a logged call says was called, and what [fire] calls for an item
    of the callback dictionary. *)
Definition called (inv : invocation) : string * string * list arg :=
  (inv_owner inv, inv_name inv, inv_args inv).

Definition fire_call (name : ename) (params : list arg) (p : string * callable)
    : string * string * list arg :=
  (p.1, c_name p.2, EventManager.fire_args name params p.2).

(** The value of [result] after a call that ended with [o], and after a
    sequence of calls: what the last callback that returned gave. *)
Definition result_after (o : outcome) (result : value) : value :=
  match o with Returns v => v | _ => result end.

Definition last_returned (dflt : value) (calls : list invocation) : value :=
  foldl (fun r inv => result_after (inv_outcome inv) r) dflt calls.

(** The calls logged between state [b] and the later state [b']. *)
Definition new_calls (b b' : bot_t) : list invocation :=
  drop (length (invoked b)) (invoked b').

(** The units in dictionary order, each repeated once per command it holds:
    the order in which [itercommands] can yield. *)
Definition dictionary_order (pm : plugin_manager_t) : list string :=
  flat_map (fun np : string * Plugin.t =>
              replicate (length (Plugin.commands np.2)) np.1) (plugins pm).

(** A list of identifiers in ascending order. *)
Fixpoint sortedb (l : list string) : bool :=
  match l with
  | a :: r => match r with
              | b :: _ => String.leb a b && sortedb r
              | [] => true
              end
  | [] => true
  end.

(** The units whose handlers [fire_command] calls for this message are
    visited in ascending order of identifier. *)
Definition visits_sorted (b : bot_t) (user : User.t) (channel : obj) (message : string)
    : Prop :=
  sortedb (map inv_owner
             (new_calls b (state_of (PluginManager.fire_command user channel message b))))
  = true.

(** The identifiers held for [name] in the dictionary that reference [l]
    points to. *)
Definition held (l : nat) (name : ename) (b : bot_t) : list string :=
  default [] (OD.get name (PluginManager.ids_at l (plugin_manager b))).

(** ** Example states *)

(** The session of [bot] after it joined [#a] and [#b] and saw alice join
    both. *)
Definition two_channels : ForkingDongles.t :=
  state_of (ForkingDongles.userJoined "alice!al@host" "#b"
    (state_of (ForkingDongles.userJoined "alice!al@host" "#a"
      (state_of (ForkingDongles.joined "#b"
        (state_of (ForkingDongles.joined "#a" (ForkingDongles.signedOn "bot")))))))).

(** A bound method that ignores its arguments and the tables and ends with
    outcome [o]; it takes a variable tail, as every decorated handler does. *)
Definition constant_callback (nm : string) (o : outcome) : callable :=
  Build_callable nm true true (Some (0, true)) (Some [EName Event.PRIVMSG]) None None
    (fun _ s => (o, s)).

(** An event manager that knows [PRIVMSG] only, with six draws to come. *)
Definition em_privmsg : event_manager_t :=
  state_of (EventManager.register (EName Event.PRIVMSG) 3
    (Build_event_manager_t [] []
       ["k3Jd9a"; "Qw81Zx"; "k3Jd9a"; "m0Lp2T"; "Ab12Cd"; "zz99YY"])).

(** [first], [second] and [third] registered for [PRIVMSG] in that order;
    [second] returns the stop-all sentinel. *)
Definition three_callbacks : bot_t :=
  Build_bot_t (ForkingDongles.signedOn "bot")
    (state_of (EventManager.register_callback (EName Event.PRIVMSG)
                 (constant_callback "third" (Returns VNone))
      (state_of (EventManager.register_callback (EName Event.PRIVMSG)
                   (constant_callback "second" (Returns (VEvent Event.STOP_ALL)))
        (state_of (EventManager.register_callback (EName Event.PRIVMSG)
                     (constant_callback "first" (Returns (VObj 1))) em_privmsg))))))
    (Build_plugin_manager_t [] ∅ 0) [].

(** A function of seven parameters and no variable tail: no declared arity
    of this session matches it. *)
Definition seven_parameters : callable :=
  Build_callable "seven" true false (Some (7, false)) None None None
    (fun _ s => (Returns VNone, s)).

(** A command handler for the token [hello], and a regex handler whose
    pattern matches every message; both return [None]. *)
Definition hello_handler (nm : string) : callable :=
  Build_callable nm true true (Some (0, true)) None (Some ["hello"]) None
    (fun _ s => (Returns VNone, s)).

Definition any_message_handler (nm : string) : callable :=
  Build_callable nm true true (Some (0, true)) None None (Some (fun _ => true))
    (fun _ s => (Returns VNone, s)).

(** A module whose [setup(bot)] returns an instance with the given methods
    and no [close]. *)
Definition plugin_module (nm : string) (methods : list callable) : Plugin.module_t :=
  Plugin.Build_module_t nm
    (Some (Plugin.Build_setup_t 1 (ret (Plugin.Build_instance_t methods None)))).

(** A [plugins/] directory with the two units [zeta] and [alpha]. *)
Definition disk_greeters (n : string) : option Plugin.module_t :=
  if decide (n = "zeta")
  then Some (plugin_module "zeta" [hello_handler "zeta_hello"; any_message_handler "zeta_log"])
  else if decide (n = "alpha")
  then Some (plugin_module "alpha" [hello_handler "alpha_hello"])
  else None.

(** The session right after [signedOn], before any plugin is loaded. *)
Definition fresh_bot : bot_t :=
  Build_bot_t (ForkingDongles.signedOn "bot") em_privmsg (Build_plugin_manager_t [] ∅ 0) [].

(** [zeta] and [alpha] loaded in that order. *)
Definition zeta_then_alpha : bot_t :=
  state_of (PluginManager.load disk_greeters ["zeta"; "alpha"] fresh_bot).

(** The Channel object of [#test], and the session in which [zeta] is
    blacklisted for it. *)
Definition test_channel : Channel.t := Channel.init 0 "#test".

Definition zeta_muted : bot_t :=
  state_of (PluginManager.blacklist "zeta" [OChannel test_channel] zeta_then_alpha).

Definition visitor : User.t := User.init "alice!al@host".

(** A callback for [PRIVMSG] declared with seven parameters and no variable
    tail: [register_callback] rejects it, [PRIVMSG] being declared with 3. *)
Definition wrong_arity_callback : callable :=
  Build_callable "on_broken" true true (Some (7, false)) (Some [EName Event.PRIVMSG])
    None None (fun _ s => (Returns VNone, s)).

(** Three versions of the unit [seen] on disk: with three callbacks for
    [PRIVMSG], with one, and with one that cannot be registered. *)
Definition disk_seen (methods : list callable) (n : string) : option Plugin.module_t :=
  if decide (n = "seen") then Some (plugin_module "seen" methods) else None.

Definition seen_three : list callable :=
  [constant_callback "on_a" (Returns VNone); constant_callback "on_b" (Returns VNone);
   constant_callback "on_c" (Returns VNone)].

Definition seen_one : list callable := [constant_callback "on_new" (Returns VNone)].

Definition seen_broken : list callable := [wrong_arity_callback].

(** [seen] loaded in its first version. *)
Definition seen_loaded : bot_t :=
  state_of (PluginManager.load (disk_seen seen_three) ["seen"] fresh_bot).

(** The identifiers registered for [name], in order. *)
Definition registered_ids (name : ename) (b : bot_t) : list string :=
  (registered name b).*1.

(** ** Notions used by the further properties *)

(** The letters of a mode string, as [modes[x]] yields them. *)
Fixpoint mode_letters (modes : string) : list string :=
  match modes with
  | EmptyString => []
  | String m rest => String m EmptyString :: mode_letters rest
  end.

(** [setMode] applied to a Channel for each letter and its argument, in
    order. *)
Definition apply_modes (added : bool) (c : Channel.t)
    (l : list (string * option string)) : Channel.t :=
  foldl (fun c p => Channel.setMode added p.1 p.2 c) c l.

(** A callback after which [fire] always goes on: whatever it is called
    with, it neither returns a stop sentinel nor raises an [AssertionError]
    from outside [defer.py]. *)
Definition always_carries_on (c : callable) : Prop :=
  forall args s, EventManager.carries_on (c_call c args s).1 = true.

(** Three callbacks for [PRIVMSG]: the first raises [EventRejectedMessage],
    the second another exception, the third returns a value. *)
Definition noisy_callbacks : bot_t :=
  Build_bot_t (ForkingDongles.signedOn "bot")
    (state_of (EventManager.register_callback (EName Event.PRIVMSG)
                 (constant_callback "answers" (Returns (VObj 7)))
      (state_of (EventManager.register_callback (EName Event.PRIVMSG)
                   (constant_callback "crashes" RaisesOther)
        (state_of (EventManager.register_callback (EName Event.PRIVMSG)
                     (constant_callback "rejects" RaisesRejected) em_privmsg))))))
    (Build_plugin_manager_t [] ∅ 0) [].

(** The test of [fire_command] on a command: its token set holds the
    leading token, or else its pattern matches the message. *)
Definition matches (cmd message : string) (c : callable) : bool :=
  match c_commands c with Some cs => Py.inb cmd cs | None => false end
  || match c_regex c with Some re => re message | None => false end.

(** The outcomes after which the loop of [fire_command] goes on: all but the
    stop-all sentinel and an [AssertionError] raised outside [defer.py]. *)
Definition routes_on (o : outcome) : bool :=
  match o with
  | Returns v => negb (bool_decide (v = VEvent Event.STOP_ALL))
  | RaisesAssertion from_defer => from_defer
  | RaisesNeedsArgs | RaisesRejected | RaisesOther => true
  end.

Definition always_routes_on (c : callable) : Prop :=
  forall args s, routes_on (c_call c args s).1 = true.

(** The commands among [cmds] that [fire_command] calls for this message
    when none of them ends the pass, as (plugin identifier, method name). *)
Definition matching (cmd message : string) (cmds : list (string * callable))
    : list (string * string) :=
  map (fun p : string * callable => (p.1, c_name p.2))
      (List.filter (fun p : string * callable => matches cmd message p.2) cmds).

(** A handler keeps a property of the tables when every call of it does. *)
Definition handler_keeps (P : ForkingDongles.t -> Prop) (c : callable) : Prop :=
  forall args s, P s -> P (c_call c args s).2.

(** A command handler for [hello] that returns the stop sentinel [STOP]. *)
Definition stop_handler (nm : string) : callable :=
  Build_callable nm true true (Some (0, true)) None (Some ["hello"]) None
    (fun _ s => (Returns (VEvent Event.STOP), s)).

Definition disk_stoppers (n : string) : option Plugin.module_t :=
  if decide (n = "first")
  then Some (plugin_module "first" [stop_handler "first_hello"])
  else if decide (n = "second")
  then Some (plugin_module "second" [hello_handler "second_hello"])
  else None.

Definition first_then_second : bot_t :=
  state_of (PluginManager.load disk_stoppers ["first"; "second"] fresh_bot).




(** * Properties *)

(** ** Lists and dictionaries *)

Section py_facts.

Lemma inb_true x l : Py.inb x l = true <-> x ∈ l.
Proof. unfold Py.inb. apply bool_decide_eq_true. Qed.

Lemma inb_false x l : Py.inb x l = false <-> x ∉ l.
Proof. unfold Py.inb. apply bool_decide_eq_false. Qed.

Lemma elem_of_remove x y l : x ∈ Py.remove y l -> x ∈ l.
Proof.
  induction l as [|z l IH]; simpl; [done|].
  destruct (decide (y = z)) as [->|Hne]; intros H.
  - by right.
  - apply elem_of_cons in H as [->|H]; [by left | right; auto].
Qed.

Lemma elem_of_remove_ne x y l : x ≠ y -> x ∈ l -> x ∈ Py.remove y l.
Proof.
  intros Hxy. induction l as [|z l IH]; simpl; [done|].
  intros [->|H]%elem_of_cons.
  - destruct (decide (y = z)); [congruence | by left].
  - destruct (decide (y = z)); [done | right; auto].
Qed.

Lemma remove_NoDup_notin x l : NoDup l -> x ∉ Py.remove x l.
Proof.
  induction 1 as [|z l Hz Hl IH]; simpl; [by apply not_elem_of_nil|].
  destruct (decide (x = z)) as [->|Hne]; [done|].
  intros [->|H]%elem_of_cons; [done | by apply IH].
Qed.

Lemma remove_NoDup x l : NoDup l -> NoDup (Py.remove x l).
Proof.
  induction 1 as [|z l Hz Hl IH]; simpl; [constructor|].
  destruct (decide (x = z)); [done|].
  constructor; [|done]. intros H. apply Hz. by apply elem_of_remove in H.
Qed.

End py_facts.

Section od_facts.
Context {K V : Type} `{EqDecision K}.
Implicit Types (d : list (K * V)) (k : K) (v : V).

Lemma od_get_set_eq k v d : OD.get k (OD.set k v d) = Some v.
Proof.
  induction d as [|[k' v'] d IH]; simpl.
  - by rewrite decide_True.
  - destruct (decide (k = k')) as [->|Hne]; simpl.
    + by rewrite decide_True.
    + by rewrite decide_False.
Qed.

Lemma od_get_set_ne k k' v d : k ≠ k' -> OD.get k' (OD.set k v d) = OD.get k' d.
Proof.
  intros Hne. induction d as [|[k0 v0] d IH]; simpl.
  - by rewrite decide_False.
  - destruct (decide (k = k0)) as [->|Hne0]; simpl.
    + by rewrite !decide_False.
    + destruct (decide (k' = k0)); [done | apply IH].
Qed.

Lemma od_get_None k d : OD.get k d = None <-> k ∉ d.*1.
Proof.
  induction d as [|[k' v'] d IH]; simpl.
  - split; [intros _; apply not_elem_of_nil | done].
  - destruct (decide (k = k')) as [->|Hne].
    + split; [done | intros []; by left].
    + rewrite IH, not_elem_of_cons. tauto.
Qed.

Lemma od_get_Some_elem k v d : OD.get k d = Some v -> (k, v) ∈ d.
Proof.
  induction d as [|[k' v'] d IH]; simpl; [done|].
  destruct (decide (k = k')) as [->|Hne].
  - intros Hv. simplify_eq. by left.
  - intros Hv. right. auto.
Qed.

Lemma od_elem_get k v d : NoDup d.*1 -> (k, v) ∈ d -> OD.get k d = Some v.
Proof.
  induction d as [|[k' v'] d IH]; simpl; [by intros _ ?%elem_of_nil|].
  intros [Hk Hd]%NoDup_cons [Heq|Hin]%elem_of_cons.
  - injection Heq as -> ->. by rewrite decide_True.
  - destruct (decide (k = k')) as [->|Hne]; [|auto].
    exfalso. apply Hk. apply list_elem_of_fmap. by exists (k', v).
Qed.

(** Assigning to a key that is not in the dictionary appends it. *)
Lemma od_set_fresh k v d : k ∉ d.*1 -> OD.set k v d = d ++ [(k, v)].
Proof.
  induction d as [|[k' v'] d IH]; simpl; [done|].
  intros [Hne Hnin]%not_elem_of_cons.
  rewrite decide_False by done. by rewrite IH.
Qed.

(** Assigning to a key that is in the dictionary keeps the order of keys. *)
Lemma od_set_keys k v d : k ∈ d.*1 -> (OD.set k v d).*1 = d.*1.
Proof.
  induction d as [|[k' v'] d IH]; simpl; [by intros ?%elem_of_nil|].
  destruct (decide (k = k')) as [->|Hne]; simpl; [done|].
  intros [?|Hin]%elem_of_cons; [done|]. f_equal. by apply IH.
Qed.

Lemma od_mem_true k d : OD.mem k d = true <-> k ∈ d.*1.
Proof.
  unfold OD.mem. destruct (OD.get k d) eqn:E.
  - split; [intros _|done]. destruct (decide (k ∈ d.*1)) as [|Hn]; [done|].
    apply od_get_None in Hn. congruence.
  - apply od_get_None in E. split; [done | by intros ?].
Qed.

End od_facts.

(** ** Mode and privilege mutation *)

Section setMode_facts.

Lemma op_translations_not_b mode a : Channel.op_translations mode = Some a -> mode ≠ "b".
Proof. intros H ->. vm_compute in H. discriminate. Qed.

Lemma startswith_refl s : Py.startswith s s = true.
Proof. induction s as [|c s IH]; simpl; [done|]. by rewrite decide_True. Qed.

(** A flag appended to a mode string is in it. *)
Lemma contains_append s sub : Py.contains sub (s +:+ sub) = true.
Proof.
  induction s as [|c s IH]; simpl.
  - destruct sub as [|a r]; simpl; [done|].
    rewrite decide_True by done. by rewrite startswith_refl.
  - rewrite IH. apply orb_true_r.
Qed.

Lemma inb_snoc x l : Py.inb x (l ++ [x]) = true.
Proof. apply inb_true, elem_of_app. right. by left. Qed.

Lemma getattr_setattr a l c : Channel.getattr a (Channel.setattr a l c) = l.
Proof. by destruct a. Qed.

(** After [setMode(True, ...)] the tests of [setMode] find the entry, unless
    the letter is one that [setMode] never records. *)
Lemma user_setMode_add_present mode arg u :
  User.has_mode mode (User.setMode true mode arg u) = true.
Proof.
  unfold User.has_mode, User.setMode. simpl.
  destruct (Py.contains mode (User.modes u)) eqn:E; simpl; [done|].
  apply contains_append.
Qed.

Lemma channel_setMode_add_present mode arg c :
  Channel.has_mode mode arg (Channel.setMode true mode arg c) = true
  \/ Channel.setMode true mode arg c = c.
Proof.
  unfold Channel.has_mode, Channel.setMode.
  destruct arg as [a|].
  - destruct (Channel.op_translations mode) as [at_|] eqn:Hop.
    + rewrite (bool_decide_eq_false_2 _ (op_translations_not_b _ _ Hop)). cbn [andb].
      destruct (Py.inb (Py.lower a) (Channel.getattr at_ c)) eqn:E; cbn [negb];
        [by right|].
      left. rewrite getattr_setattr. apply inb_snoc.
    + destruct (bool_decide (mode = "b")); cbn [andb]; [|by right].
      destruct (Py.inb (Py.lower a) (Channel.bans c)) eqn:E; cbn [negb]; [by right|].
      left. simpl. apply inb_snoc.
  - destruct (Py.contains mode (Channel.modes c)) eqn:E; cbn [negb]; [by right|].
    left. simpl. apply contains_append.
Qed.

End setMode_facts.

(** C8. [setMode] is idempotent on a User and on a Channel: adding a flag, a
    privilege entry or a ban entry that is already present, or removing one
    that is absent, returns the object unchanged; hence adding twice is
    adding once. *)
Theorem setMode_idempotent added mode arg (u : User.t) (c : Channel.t) :
  (User.has_mode mode u = added -> User.setMode added mode arg u = u) /\
  (Channel.has_mode mode arg c = added -> Channel.setMode added mode arg c = c) /\
  User.setMode true mode arg (User.setMode true mode arg u) = User.setMode true mode arg u /\
  Channel.setMode true mode arg (Channel.setMode true mode arg c)
    = Channel.setMode true mode arg c.
Proof.
  assert (forall added u, User.has_mode mode u = added ->
                          User.setMode added mode arg u = u) as Huser.
  { intros add u0. unfold User.has_mode, User.setMode. intros <-.
    by destruct (Py.contains mode (User.modes u0)). }
  assert (forall added c, Channel.has_mode mode arg c = added ->
                          Channel.setMode added mode arg c = c) as Hchan.
  { intros add c0. unfold Channel.has_mode, Channel.setMode. intros <-.
    destruct arg as [a|].
    - destruct (Channel.op_translations mode) as [at_|] eqn:Hop.
      + apply op_translations_not_b in Hop.
        rewrite bool_decide_eq_false_2 by done.
        by destruct (Py.inb (Py.lower a) (Channel.getattr at_ c0)).
      + destruct (bool_decide (mode = "b")); simpl; [|done].
        by destruct (Py.inb (Py.lower a) (Channel.bans c0)).
    - by destruct (Py.contains mode (Channel.modes c0)). }
  split; [apply Huser|]. split; [apply Hchan|]. split.
  - apply Huser, user_setMode_add_present.
  - destruct (channel_setMode_add_present mode arg c) as [Hin|Hid].
    + by apply Hchan.
    + by rewrite !Hid.
Qed.

Lemma setMode_idempotent_witness :
  User.setMode true "o" None (User.mk "alice" "a" "host" "ro" false)
    = User.mk "alice" "a" "host" "ro" false /\
  Channel.setMode false "o" (Some "Alice") (Channel.init 0 "#test")
    = Channel.init 0 "#test".
Proof.
  split.
  - apply (proj1 (setMode_idempotent true "o" None
                    (User.mk "alice" "a" "host" "ro" false) (Channel.init 0 "#test"))).
    reflexivity.
  - apply (proj1 (proj2 (setMode_idempotent false "o" (Some "Alice")
                    (User.mk "alice" "a" "host" "ro" false) (Channel.init 0 "#test")))).
    reflexivity.
Defined.

(** ** Leaving a channel *)

Section membership_facts.
Import ForkingDongles.

Lemma in_some_channel_true nk s :
  in_some_channel nk s = true <->
  exists k c, channels s !! k = Some c /\ Py.lower nk ∈ Channel.users c.
Proof.
  unfold in_some_channel. rewrite existsb_exists. split.
  - intros [[k c] [Hin Hx]]. exists k, c. split.
    + by apply elem_of_map_to_list, list_elem_of_In.
    + by apply inb_true.
  - intros (k & c & Hk & Hx). exists (k, c). split.
    + by apply list_elem_of_In, elem_of_map_to_list.
    + by apply inb_true.
Qed.

Lemma getattr_remove_in nk c a b :
  a <> b -> Channel.getattr b (Channel.remove_in nk c a) = Channel.getattr b c.
Proof.
  intros Hab. unfold Channel.remove_in.
  destruct (Py.inb (Py.lower nk) (Channel.getattr a c)); [|done].
  by destruct a, b.
Qed.

Lemma users_removeUser nk c :
  Channel.users (Channel.removeUser nk c) =
  if Py.inb (Py.lower nk) (Channel.users c)
  then Py.remove (Py.lower nk) (Channel.users c) else Channel.users c.
Proof.
  unfold Channel.removeUser, Channel.all_attrs. cbn [foldl].
  change (Channel.users ?x) with (Channel.getattr Channel.Users x).
  rewrite !getattr_remove_in by done.
  unfold Channel.remove_in. cbn [Channel.getattr].
  by destruct (Py.inb (Py.lower nk) (Channel.users c)).
Qed.

Lemma removeUser_gone nk c :
  NoDup (Channel.users c) -> Py.lower nk ∉ Channel.users (Channel.removeUser nk c).
Proof.
  intros Hnd. rewrite users_removeUser.
  destruct (Py.inb (Py.lower nk) (Channel.users c)) eqn:E.
  - by apply remove_NoDup_notin.
  - by apply inb_false.
Qed.

Lemma on_channel_ok channel f s c :
  channels s !! Py.lower channel = Some c ->
  on_channel channel f s = Ok tt (with_channels <[Py.lower channel := f c]> s).
Proof.
  intros H. unfold on_channel, bind, get, getitem. simpl. rewrite H. reflexivity.
Qed.

(** The body shared by [userLeft] and [userKicked]. *)
Lemma leave_channel user channel s u c :
  tables_wf s ->
  users s !! Py.lower (User.nick (User.init user)) = Some u ->
  channels s !! Py.lower channel = Some c ->
  exists s', userLeft user channel s = Ok tt s'
    /\ channels s' = <[Py.lower channel := Channel.removeUser (User.nick u) c]> (channels s)
    /\ (in_other_channel (User.nick u) channel s -> users s' = users s)
    /\ (~ in_other_channel (User.nick u) channel s ->
        users s' = delete (Py.lower (User.nick u)) (users s)).
Proof.
  intros [Hu Hc] Hlook Hch.
  pose proof (Hu _ _ Hlook) as Hkey.
  unfold userLeft, bind, get, getitem. simpl. rewrite Hlook. simpl.
  rewrite (on_channel_ok _ _ _ _ Hch). simpl.
  set (s1 := with_channels _ s).
  destruct (in_some_channel (User.nick u) s1) eqn:E; simpl.
  - eexists. split; [reflexivity|]. split; [reflexivity|]. split; [done|].
    intros Hno. exfalso. apply in_some_channel_true in E as (k & c' & Hk & Hin).
    subst s1. simpl in Hk.
    destruct (decide (k = Py.lower channel)) as [->|Hne].
    + rewrite lookup_insert_eq in Hk. injection Hk as <-.
      by apply (removeUser_gone (User.nick u) c (Hc _ _ Hch)).
    + rewrite lookup_insert_ne in Hk by done.
      apply Hno. by exists k, c'.
  - unfold removeUser. simpl. subst s1. simpl.
    rewrite <- Hkey, Hlook. simpl.
    eexists. split; [reflexivity|]. split; [reflexivity|]. split; [|done].
    intros (k & c' & Hne & Hk & Hin). exfalso.
    assert (in_some_channel (User.nick u)
              (with_channels <[Py.lower channel := Channel.removeUser (User.nick u) c]> s)
            = true) as Ht; [|congruence].
    apply in_some_channel_true. exists k, c'. simpl.
    by rewrite lookup_insert_ne.
Qed.

End membership_facts.

(** C7. When a tracked user parts or is kicked from a tracked channel, it
    leaves that channel's lists; it stays in the registry if another tracked
    channel still has it in its membership, and is deleted from the registry
    otherwise. *)
Theorem part_or_kick_purges_or_retains user channel kicker message s u c :
  tables_wf s ->
  ForkingDongles.users s !! Py.lower (User.nick (User.init user)) = Some u ->
  ForkingDongles.channels s !! Py.lower channel = Some c ->
  leaves_channel (ForkingDongles.userLeft user channel s) u c channel s /\
  leaves_channel (ForkingDongles.userKicked user channel kicker message s) u c channel s.
Proof.
  intros Hwf Hu Hc.
  assert (leaves_channel (ForkingDongles.userLeft user channel s) u c channel s) as Hleft.
  { destruct (leave_channel user channel s u c Hwf Hu Hc)
      as (s' & Hrun & Hch & Hkeep & Hdrop).
    exists s'. split; [done|]. split.
    { apply removeUser_gone. destruct Hwf as [_ Hcw]. by apply (Hcw _ _ Hc). }
    split; [by rewrite Hch, lookup_insert_eq|]. split.
    - intros Hin. rewrite (Hkeep Hin).
      destruct Hwf as [Huw _]. by rewrite <- (Huw _ _ Hu).
    - intros Hno. rewrite (Hdrop Hno). apply lookup_delete_eq. }
  split; [exact Hleft|]. exact Hleft.
Qed.

(** ** Name-list replies *)

Section namreply_facts.
Import ForkingDongles.
Local Open Scope py_scope.

Lemma chan_run_ret {A} (a : A) channel (Q : A -> Prop) :
  Q a -> chan_run (ret a) channel (fun c => c) Q.
Proof.
  intros Ha s c Hc. exists a, s. repeat split; [done|].
  symmetry. by apply insert_id.
Qed.

Lemma chan_run_bind {A B} (m : M t A) (k : A -> M t B) channel f g
    (Q : A -> Prop) (R : B -> Prop) :
  chan_run m channel f Q ->
  (forall a, Q a -> chan_run (k a) channel g R) ->
  chan_run (bind m k) channel (fun c => g (f c)) R.
Proof.
  intros Hm Hk s c Hc.
  destruct (Hm s c Hc) as (a & s1 & Hrun & Ha & Hch & Hp).
  assert (channels s1 !! Py.lower channel = Some (f c)) as Hc1
    by (rewrite Hch; apply lookup_insert_eq).
  destruct (Hk a Ha s1 (f c) Hc1) as (b & s2 & Hrun2 & Hb & Hch2 & Hp2).
  exists b, s2. unfold bind. rewrite Hrun. repeat split; [done|done| |congruence].
  rewrite Hch2, Hch. apply insert_insert_eq.
Qed.

Lemma chan_run_addUser a channel :
  chan_run (addUser a) channel (fun c => c) (fun _ => True).
Proof.
  intros s c Hc. unfold addUser.
  set (u := User.with_is_self _ (as_User a)).
  set (k := Py.lower (User.nick u)).
  destruct (users s !! k) as [u0|] eqn:E.
  - exists u0, s. unfold getitem. rewrite E. repeat split.
    symmetry. by apply insert_id.
  - exists u. eexists. unfold getitem. simpl. rewrite lookup_insert_eq.
    split; [reflexivity|]. repeat split. simpl. symmetry. by apply insert_id.
Qed.

Lemma chan_run_on_channel channel f :
  chan_run (on_channel channel f) channel f (fun _ => True).
Proof.
  intros s c Hc. exists tt. eexists.
  rewrite (on_channel_ok _ _ _ _ Hc). repeat split.
Qed.

(** One round of the name-list loop. *)
Lemma chan_run_namreply_cons mt channel nk h rest modes args f Q :
  Py.head nk = Some h ->
  (forall modes' args' nk',
     (modes', args', nk') =
       match mt !! h with
       | Some m => (modes +:+ m, args ++ [Py.drop 1 nk], Py.drop 1 nk)
       | None => (modes, args, nk)
       end ->
     chan_run (namreply_loop mt channel rest modes' args') channel (f nk') Q) ->
  forall nk',
    nk' = match mt !! h with Some _ => Py.drop 1 nk | None => nk end ->
    chan_run (namreply_loop mt channel (nk :: rest) modes args) channel
      (fun c => f nk' (Channel.addUser nk' c)) Q.
Proof.
  intros Hh Hrest nk' ->. simpl. rewrite Hh.
  destruct (mt !! h) as [m|]; simpl.
  - eapply (chan_run_bind _ _ _ (fun c => c) _ (fun _ => True)); [apply chan_run_addUser|].
    intros _ _.
    eapply (chan_run_bind _ _ _ _ _ (fun _ => True)); [apply chan_run_on_channel|].
    intros _ _. by apply Hrest.
  - eapply (chan_run_bind _ _ _ (fun c => c) _ (fun _ => True)); [apply chan_run_addUser|].
    intros _ _.
    eapply (chan_run_bind _ _ _ _ _ (fun _ => True)); [apply chan_run_on_channel|].
    intros _ _. by apply Hrest.
Qed.

(** The loop on the three names of the reply, for every table that reads
    [@] as [o] and [+] as [v] and has no entry for the letter [c]. *)
Lemma chan_run_namreply_three mt :
  mt !! "@" = Some "o" -> mt !! "+" = Some "v" -> mt !! "c" = None ->
  chan_run (namreply_loop mt "#test" ["@alice"; "+bob"; "carol"] "" [])
    "#test"
    (fun c => Channel.addUser "carol" (Channel.addUser "bob" (Channel.addUser "alice" c)))
    (fun r => r = ("ov", ["alice"; "bob"])).
Proof.
  intros Hat Hplus Hc.
  apply (chan_run_namreply_cons mt "#test" "@alice" "@" _ "" []
           (fun _ c => Channel.addUser "carol" (Channel.addUser "bob" c)) _ eq_refl);
    [|by rewrite Hat].
  intros modes' args' nk'. rewrite Hat. intros [= -> -> ->].
  apply (chan_run_namreply_cons mt "#test" "+bob" "+" _ "o" ["alice"]
           (fun _ c => Channel.addUser "carol" c) _ eq_refl); [|by rewrite Hplus].
  intros modes' args' nk'. rewrite Hplus. intros [= -> -> ->].
  apply (chan_run_namreply_cons mt "#test" "carol" "c" _ "ov" ["alice"; "bob"]
           (fun _ c => c) _ eq_refl); [|by rewrite Hc].
  intros modes' args' nk'. rewrite Hc. intros [= -> -> ->].
  by apply chan_run_ret.
Qed.

(** Both tables a server that advertises none leaves the handler with: the
    fallback of line 216 and the translation of Twisted's own table. *)
Lemma mode_translation_no_advert s :
  PREFIX s = None \/ PREFIX s = Some default_PREFIX ->
  mode_translation s !! "@" = Some "o"
  /\ mode_translation s !! "+" = Some "v"
  /\ mode_translation s !! "c" = None.
Proof.
  unfold mode_translation. intros [-> | ->]; repeat split; vm_compute; reflexivity.
Qed.

(** [modeChanged] for the two privileges the reply grants. *)
Lemma chan_run_modeChanged_ov :
  chan_run (modeChanged None "#test" true "ov" [Some "alice"; Some "bob"]) "#test"
    (fun c => Channel.setMode true "v" (Some "bob")
                (Channel.setMode true "o" (Some "alice") c))
    (fun _ => True).
Proof.
  intros s c Hc. unfold modeChanged, bind at 1, get.
  change (Py.startswith "#" "#test") with true. cbn [negb].
  rewrite bool_decide_eq_true_2 by (rewrite Hc; eauto).
  revert s c Hc. change (chan_run
    (modeChanged_loop (fun m arg => on_channel "#test" (Channel.setMode true m arg))
       0 "ov" [Some "alice"; Some "bob"]) "#test"
    (fun c => Channel.setMode true "v" (Some "bob")
                (Channel.setMode true "o" (Some "alice") c))
    (fun _ => True)).
  simpl.
  apply (chan_run_bind _ _ _ (Channel.setMode true "o" (Some "alice"))
           (Channel.setMode true "v" (Some "bob")) (fun _ => True));
    [apply chan_run_on_channel|].
  intros _ _.
  apply (chan_run_bind _ _ _ (Channel.setMode true "v" (Some "bob")) (fun c => c)
           (fun _ => True)); [apply chan_run_on_channel|].
  intros _ _. by apply chan_run_ret.
Qed.

Lemma namreply_three_run prefix pre s c :
  PREFIX s = None \/ PREFIX s = Some default_PREFIX ->
  channels s !! "#test" = Some c ->
  exists s', irc_RPL_NAMREPLY prefix (pre ++ ["#test"; "@alice +bob carol"]) s = Ok tt s'
    /\ channels s' !! "#test" =
         Some (Channel.setMode true "v" (Some "bob")
                (Channel.setMode true "o" (Some "alice")
                  (Channel.addUser "carol" (Channel.addUser "bob"
                    (Channel.addUser "alice" c))))).
Proof.
  intros Hp Hc. unfold irc_RPL_NAMREPLY.
  rewrite rev_app_distr.
  change (rev ["#test"; "@alice +bob carol"]) with ["@alice +bob carol"; "#test"].
  cbn [app]. unfold bind at 1, get.
  destruct (mode_translation_no_advert s Hp) as (Hat & Hplus & Hno).
  change (Py.split "@alice +bob carol") with ["@alice"; "+bob"; "carol"].
  destruct (chan_run_namreply_three _ Hat Hplus Hno s c Hc)
    as (r & s1 & Hrun & -> & Hch & _).
  unfold bind. rewrite Hrun. simpl fst. simpl snd.
  assert (channels s1 !! Py.lower "#test" = Some
            (Channel.addUser "carol" (Channel.addUser "bob" (Channel.addUser "alice" c))))
    as Hc1 by (rewrite Hch; apply lookup_insert_eq).
  destruct (chan_run_modeChanged_ov s1 _ Hc1) as ([] & s2 & Hrun2 & _ & Hch2 & _).
  exists s2. split; [exact Hrun2|].
  rewrite Hch2. apply lookup_insert_eq.
Qed.

End namreply_facts.

Section namreply_result.

Lemma addUser_users nk c x :
  x ∈ Channel.users (Channel.addUser nk c) <-> x ∈ Channel.users c \/ x = Py.lower nk.
Proof.
  unfold Channel.addUser.
  destruct (Py.inb (Py.lower nk) (Channel.users c)) eqn:E; simpl.
  - apply inb_true in E. split; [by left | by intros [?| ->]].
  - rewrite elem_of_app, list_elem_of_singleton. tauto.
Qed.

Lemma addUser_ops nk c a :
  a <> Channel.Users -> Channel.getattr a (Channel.addUser nk c) = Channel.getattr a c.
Proof.
  intros Ha. unfold Channel.addUser.
  destruct (Py.inb (Py.lower nk) (Channel.users c)); [done|].
  by destruct a.
Qed.

(** Granting a privilege adds the lowercase nick to the list of its letter
    and touches no other list. *)
Lemma setMode_grant mode at_ a c :
  Channel.op_translations mode = Some at_ ->
  (forall x, x ∈ Channel.getattr at_ (Channel.setMode true mode (Some a) c)
             <-> x ∈ Channel.getattr at_ c \/ x = Py.lower a)
  /\ (forall b, b <> at_ ->
        Channel.getattr b (Channel.setMode true mode (Some a) c) = Channel.getattr b c).
Proof.
  intros Hop. unfold Channel.setMode. rewrite Hop.
  rewrite (bool_decide_eq_false_2 _ (op_translations_not_b _ _ Hop)). cbn [andb].
  destruct (Py.inb (Py.lower a) (Channel.getattr at_ c)) eqn:E; cbn [negb].
  - apply inb_true in E. split; [|done].
    intros x. split; [by left | by intros [?| ->]].
  - split.
    + intros x. destruct at_; simpl; rewrite elem_of_app, list_elem_of_singleton; tauto.
    + intros b Hb. by destruct at_, b.
Qed.

(** What the reply leaves in the Channel object. *)
Lemma namreply_three_final c :
  let c' := Channel.setMode true "v" (Some "bob")
              (Channel.setMode true "o" (Some "alice")
                (Channel.addUser "carol" (Channel.addUser "bob"
                  (Channel.addUser "alice" c)))) in
  "alice" ∈ Channel.aops c' /\ "bob" ∈ Channel.vops c'
  /\ ("carol" ∈ Channel.aops c' <-> "carol" ∈ Channel.aops c)
  /\ ("carol" ∈ Channel.vops c' <-> "carol" ∈ Channel.vops c)
  /\ "alice" ∈ Channel.users c' /\ "bob" ∈ Channel.users c'
  /\ "carol" ∈ Channel.users c'.
Proof.
  intros c'. subst c'.
  set (c3 := Channel.addUser "carol" (Channel.addUser "bob" (Channel.addUser "alice" c))).
  set (c4 := Channel.setMode true "o" (Some "alice") c3).
  destruct (setMode_grant "v" Channel.Vops "bob" c4 eq_refl) as [Hv Hv'].
  destruct (setMode_grant "o" Channel.Aops "alice" c3 eq_refl) as [Ho Ho'].
  pose proof (Hv' Channel.Aops ltac:(done)) as Ea.
  pose proof (Hv' Channel.Users ltac:(done)) as Eu.
  pose proof (Ho' Channel.Vops ltac:(done)) as Ev4.
  pose proof (Ho' Channel.Users ltac:(done)) as Eu4.
  assert (Channel.aops c3 = Channel.aops c) as Ea3.
  { subst c3. change (Channel.aops ?x) with (Channel.getattr Channel.Aops x).
    by rewrite !addUser_ops. }
  assert (Channel.vops c3 = Channel.vops c) as Ev3.
  { subst c3. change (Channel.vops ?x) with (Channel.getattr Channel.Vops x).
    by rewrite !addUser_ops. }
  cbn [Channel.getattr] in Ea, Eu, Ev4, Eu4, Hv, Ho. subst c4.
  change (Py.lower "alice") with "alice" in Ho.
  change (Py.lower "bob") with "bob" in Hv.
  rewrite Ea, Eu, Eu4. rewrite !Hv, !Ho, Ev4, Ea3, Ev3.
  subst c3. rewrite !addUser_users.
  change (Py.lower "alice") with "alice".
  change (Py.lower "bob") with "bob".
  change (Py.lower "carol") with "carol".
  repeat split; try tauto; intros [?|?]; done.
Qed.

End namreply_result.

(** C9. The name-list reply ["@alice +bob carol"] for the tracked channel
    [#test], received while the server advertises no prefix table, returns
    normally and leaves alice in the operator list of [#test], bob in its
    voice list, carol in neither (she was in neither before), and the three
    lowercase nicks in its membership. A server that advertises no table
    leaves the session either without the PREFIX feature, and the handler
    takes its fallback table, or with the table Twisted starts from, and the
    handler translates that one. *)
Theorem namreply_alice_bob_carol prefix pre s c :
  ForkingDongles.PREFIX s = None
    \/ ForkingDongles.PREFIX s = Some ForkingDongles.default_PREFIX ->
  ForkingDongles.channels s !! "#test" = Some c ->
  "carol" ∉ Channel.aops c ->
  "carol" ∉ Channel.vops c ->
  exists s' c',
    ForkingDongles.irc_RPL_NAMREPLY prefix (pre ++ ["#test"; "@alice +bob carol"]) s
      = Ok tt s'
    /\ ForkingDongles.channels s' !! "#test" = Some c'
    /\ Channel.isOP "alice" c' = true /\ Channel.isVoice "bob" c' = true
    /\ Channel.isOP "carol" c' = false /\ Channel.isVoice "carol" c' = false
    /\ "alice" ∈ Channel.users c' /\ "bob" ∈ Channel.users c'
    /\ "carol" ∈ Channel.users c'.
Proof.
  intros Hp Hc Ha Hv.
  destruct (namreply_three_run prefix pre s c Hp Hc) as (s' & Hrun & Hch).
  destruct (namreply_three_final c) as (H1 & H2 & H3 & H4 & H5 & H6 & H7).
  eexists s', _. split; [exact Hrun|]. split; [exact Hch|].
  unfold Channel.isOP, Channel.isVoice, Channel.isAOP, Channel.isVOP.
  change (Py.lower "alice") with "alice".
  change (Py.lower "bob") with "bob".
  change (Py.lower "carol") with "carol".
  rewrite !inb_true, !inb_false. tauto.
Qed.

Lemma namreply_alice_bob_carol_witness :
  (exists s' c',
    ForkingDongles.irc_RPL_NAMREPLY "irc.example.com"
      (["bot"; "="] ++ ["#test"; "@alice +bob carol"])
      (state_of (ForkingDongles.joined "#test" (ForkingDongles.signedOn "bot")))
      = Ok tt s'
    /\ ForkingDongles.channels s' !! "#test" = Some c'
    /\ Channel.isOP "alice" c' = true /\ Channel.isVoice "bob" c' = true
    /\ Channel.isOP "carol" c' = false /\ Channel.isVoice "carol" c' = false
    /\ "alice" ∈ Channel.users c' /\ "bob" ∈ Channel.users c'
    /\ "carol" ∈ Channel.users c')
  /\ (exists s' c',
    ForkingDongles.irc_RPL_NAMREPLY "irc.example.com"
      (["bot"; "="] ++ ["#test"; "@alice +bob carol"])
      (ForkingDongles.set_PREFIX None
         (state_of (ForkingDongles.joined "#test" (ForkingDongles.signedOn "bot"))))
      = Ok tt s'
    /\ ForkingDongles.channels s' !! "#test" = Some c'
    /\ Channel.isOP "alice" c' = true /\ Channel.isVoice "bob" c' = true
    /\ Channel.isOP "carol" c' = false /\ Channel.isVoice "carol" c' = false
    /\ "alice" ∈ Channel.users c' /\ "bob" ∈ Channel.users c'
    /\ "carol" ∈ Channel.users c').
Proof.
  split.
  - apply (namreply_alice_bob_carol "irc.example.com" ["bot"; "="]
             (state_of (ForkingDongles.joined "#test" (ForkingDongles.signedOn "bot")))
             (Channel.init 0 "#test")).
    + right. reflexivity.
    + vm_compute. reflexivity.
    + simpl. apply not_elem_of_nil.
    + simpl. apply not_elem_of_nil.
  - apply (namreply_alice_bob_carol "irc.example.com" ["bot"; "="]
             (ForkingDongles.set_PREFIX None
                (state_of (ForkingDongles.joined "#test" (ForkingDongles.signedOn "bot"))))
             (Channel.init 0 "#test")).
    + left. reflexivity.
    + vm_compute. reflexivity.
    + simpl. apply not_elem_of_nil.
    + simpl. apply not_elem_of_nil.
Defined.

(** ** The handlers keep the tables well formed *)

Section wf_facts.
Import ForkingDongles.

Lemma wf_signedOn nick : tables_wf (signedOn nick).
Proof.
  split; intros k x H; simpl in H; by rewrite lookup_empty in H.
Qed.

Lemma wf_joined channel s : tables_wf s -> tables_wf (state_of (joined channel s)).
Proof.
  intros [Hu Hc]. unfold joined.
  destruct (channels s !! Py.lower channel) eqn:E; simpl.
  - by split.
  - split; [exact Hu|]. intros k c. simpl.
    intros [[_ <-]|[_ H]]%lookup_insert_Some; [constructor | by eapply Hc].
Qed.

Lemma addUser_ok a s :
  exists u s', addUser a s = Ok u s'
    /\ channels s' = channels s
    /\ (users_wf s -> users_wf s').
Proof.
  unfold addUser.
  set (u := User.with_is_self _ (as_User a)).
  set (k := Py.lower (User.nick u)).
  destruct (users s !! k) as [u0|] eqn:E; unfold getitem.
  - exists u0, s. rewrite E. by repeat split.
  - exists u. eexists. simpl. rewrite lookup_insert_eq.
    split; [reflexivity|]. split; [done|].
    intros H k' u'. simpl.
    intros [[<- <-]|[_ H']]%lookup_insert_Some; [done | by apply H].
Qed.

Lemma NoDup_addUser nk c :
  NoDup (Channel.users c) -> NoDup (Channel.users (Channel.addUser nk c)).
Proof.
  intros Hnd. unfold Channel.addUser.
  destruct (Py.inb (Py.lower nk) (Channel.users c)) eqn:E; simpl; [done|].
  apply inb_false in E. apply NoDup_app. split; [done|]. split.
  - by intros x Hx ->%list_elem_of_singleton.
  - apply NoDup_singleton.
Qed.

Lemma wf_on_channel channel f s :
  (forall c, NoDup (Channel.users c) -> NoDup (Channel.users (f c))) ->
  tables_wf s -> tables_wf (state_of (on_channel channel f s)).
Proof.
  intros Hf [Hu Hc]. unfold on_channel, bind, get, getitem. simpl.
  destruct (channels s !! Py.lower channel) as [c|] eqn:E; simpl; [|by split].
  split; [exact Hu|]. intros k c'. simpl.
  intros [[_ <-]|[_ H]]%lookup_insert_Some; [apply Hf | ]; by eapply Hc.
Qed.

Lemma wf_userJoined user channel s :
  tables_wf s -> tables_wf (state_of (userJoined user channel s)).
Proof.
  intros [Hu Hc]. unfold userJoined, bind.
  destruct (addUser_ok (Mask user) s) as (u & s1 & -> & Hch & Hwf).
  apply wf_on_channel; [apply NoDup_addUser|].
  split; [by apply Hwf|]. intros k c. rewrite Hch. apply Hc.
Qed.

Lemma NoDup_removeUser nk c :
  NoDup (Channel.users c) -> NoDup (Channel.users (Channel.removeUser nk c)).
Proof.
  intros Hnd. rewrite users_removeUser.
  destruct (Py.inb (Py.lower nk) (Channel.users c)); [by apply remove_NoDup | done].
Qed.

Lemma wf_userLeft user channel s :
  tables_wf s -> tables_wf (state_of (userLeft user channel s)).
Proof.
  intros Hwf. unfold userLeft, bind at 1, get. unfold bind at 1, getitem.
  destruct (users s !! _) as [u|] eqn:E; simpl; [|done].
  pose proof (wf_on_channel channel (Channel.removeUser (User.nick u)) s
                (NoDup_removeUser _) Hwf) as Hwf1.
  unfold bind at 1.
  destruct (on_channel channel (Channel.removeUser (User.nick u)) s)
    as [[] s1|e s1|s1]; simpl in *; [|done|done].
  unfold bind, get.
  destruct (negb (in_some_channel (User.nick u) s1)); simpl; [|done].
  unfold removeUser. simpl.
  destruct (users s1 !! Py.lower (User.nick u)); simpl; [|done].
  destruct Hwf1 as [Hu Hc]. split; [|exact Hc].
  intros k u'. simpl. intros [_ H]%lookup_delete_Some. by apply Hu.
Qed.

End wf_facts.

Lemma part_or_kick_purges_or_retains_witness :
  leaves_channel (ForkingDongles.userLeft "alice!al@host" "#a" two_channels)
    (User.mk "alice" "al" "host" "" false) (Channel.mk 0 "#a" ["alice"] "" [] [] [] [] [] [] false)
    "#a" two_channels /\
  leaves_channel (ForkingDongles.userKicked "alice!al@host" "#a" "op" "bye" two_channels)
    (User.mk "alice" "al" "host" "" false) (Channel.mk 0 "#a" ["alice"] "" [] [] [] [] [] [] false)
    "#a" two_channels.
Proof.
  apply (part_or_kick_purges_or_retains "alice!al@host" "#a" "op" "bye" two_channels).
  - unfold two_channels.
    apply wf_userJoined, wf_userJoined, wf_joined, wf_joined, wf_signedOn.
  - vm_compute. reflexivity.
  - vm_compute. reflexivity.
Defined.

(** ** Quitting and renaming *)

Section quit_rename_facts.
Import ForkingDongles.

Lemma userQuit_run user message s :
  exists s', userQuit user message s = Ok tt s'
    /\ channels s' = channels s
    /\ users s' = delete (Py.lower (User.nick (User.init user))) (users s).
Proof.
  unfold userQuit, bind, removeUser. simpl.
  destruct (users s !! Py.lower (User.nick (User.init user))) eqn:E; simpl.
  - eexists. by repeat split.
  - exists s. repeat split. symmetry. by apply delete_id.
Qed.

Lemma userRenamed_channels old new s :
  channels (state_of (userRenamed old new s)) = channels s.
Proof.
  unfold userRenamed, bind at 1, get. unfold bind at 1, getitem.
  destruct (users s !! Py.lower old) as [u|]; simpl; [|done].
  unfold renameUser, bind, modify, get, getitem. simpl.
  repeat (match goal with
          | |- context [match ?m !! ?k with _ => _ end] => destruct (m !! k)
          end; simpl); reflexivity.
Qed.

(** A rename that only changes the casing: the registry entry is written and
    then deleted under the same key, and the method stops on a [KeyError]. *)
Lemma userRenamed_same_key old new s u :
  users s !! Py.lower old = Some u ->
  Py.lower (User.nick u) = Py.lower new ->
  exists s', userRenamed old new s = Raise KeyError s'
    /\ users s' = delete (Py.lower new) (users s).
Proof.
  intros Hu Hk.
  unfold userRenamed, bind at 1, get. unfold bind at 1, getitem. rewrite Hu. simpl.
  unfold renameUser, bind, modify, get, getitem. simpl.
  rewrite Hk, lookup_insert_eq. simpl. rewrite lookup_delete_eq. simpl.
  eexists. split; [reflexivity|]. simpl. apply delete_insert_eq.
Qed.

End quit_rename_facts.

(** C1. What [userQuit] does: it deletes the user from the registry and
    returns; the Channel objects are exactly as before, so the nick of a
    user who quit stays in the membership of every channel it was in. In the
    session where alice is in [#a] and [#b], her quit leaves her out of the
    registry and in the membership of [#a]. *)
Theorem userQuit_leaves_channels_untouched :
  (forall user message s,
     exists s', ForkingDongles.userQuit user message s = Ok tt s'
       /\ ForkingDongles.channels s' = ForkingDongles.channels s) /\
  (exists s' c,
     ForkingDongles.userQuit "alice!al@host" "bye" two_channels = Ok tt s'
     /\ ForkingDongles.users s' !! "alice" = None
     /\ ForkingDongles.channels s' !! "#a" = Some c
     /\ "alice" ∈ Channel.users c).
Proof.
  split.
  - intros user message s.
    destruct (userQuit_run user message s) as (s' & H1 & H2 & _). by exists s'.
  - exists (state_of (ForkingDongles.userQuit "alice!al@host" "bye" two_channels)),
      (Channel.mk 0 "#a" ["alice"] "" [] [] [] [] [] [] false).
    split; [vm_compute; reflexivity|]. split; [vm_compute; reflexivity|].
    split; [vm_compute; reflexivity|]. by left.
Qed.

(** C2. What [userRenamed] does: the registry entry moves to the new key, but
    no Channel object changes, so every channel keeps the old nick; and when
    the new nick differs from the old one only in casing, the entry is lost
    and the method raises [KeyError]. *)
Theorem userRenamed_loses_track :
  (forall old new s,
     ForkingDongles.channels (state_of (ForkingDongles.userRenamed old new s))
       = ForkingDongles.channels s) /\
  (exists s' c,
     ForkingDongles.userRenamed "alice" "bob" two_channels = Ok tt s'
     /\ ForkingDongles.users s' !! "bob" = Some (User.mk "bob" "al" "host" "" false)
     /\ ForkingDongles.channels s' !! "#a" = Some c
     /\ "alice" ∈ Channel.users c /\ "bob" ∉ Channel.users c) /\
  (exists s',
     ForkingDongles.userRenamed "alice" "Alice" two_channels = Raise KeyError s'
     /\ ForkingDongles.users s' = ∅).
Proof.
  split; [apply userRenamed_channels|]. split.
  - exists (state_of (ForkingDongles.userRenamed "alice" "bob" two_channels)),
      (Channel.mk 0 "#a" ["alice"] "" [] [] [] [] [] [] false).
    split; [vm_compute; reflexivity|]. split; [vm_compute; reflexivity|].
    split; [vm_compute; reflexivity|]. split; [by left|].
    by intros [?|?%elem_of_nil]%elem_of_cons.
  - exists (state_of (ForkingDongles.userRenamed "alice" "Alice" two_channels)).
    split; vm_compute; reflexivity.
Qed.

(** ** The event registry *)

Section event_manager_facts.

Lemma fresh_id_spec taken ds d :
  d ∈ ds -> d ∉ taken ->
  exists callback_id rest,
    EventManager.fresh_id taken ds = Some (callback_id, rest) /\ (callback_id ∉ taken).
Proof.
  induction ds as [|x ds IH]; [by intros ?%elem_of_nil|].
  intros Hin Hd. simpl.
  destruct (Py.inb x taken) eqn:E.
  - apply inb_true in E.
    apply elem_of_cons in Hin as [->|Hin]; [done | by apply IH].
  - apply inb_false in E. by exists x, ds.
Qed.

Lemma fresh_id_Some taken ds callback_id rest :
  EventManager.fresh_id taken ds = Some (callback_id, rest) -> callback_id ∉ taken.
Proof.
  induction ds as [|x ds IH]; simpl; [done|].
  destruct (Py.inb x taken) eqn:E; [done|].
  intros [= <- <-]. by apply inb_false.
Qed.

(** A successful [_add_callback] puts the callback last among those of its
    kind, under an identifier none of them has. *)
Lemma add_callback_appends name callback em callback_id em' :
  EventManager._add_callback name callback em = Ok callback_id em' ->
  (callback_id ∉ (default [] (OD.get name (callbacks em))).*1)
  /\ OD.get name (callbacks em')
       = Some (default [] (OD.get name (callbacks em)) ++ [(callback_id, callback)])
  /\ events em' = events em.
Proof.
  unfold EventManager._add_callback.
  destruct (EventManager.fresh_id _ (draws em)) as [[i rest]|] eqn:E; [|done].
  intros [= <- <-]. apply fresh_id_Some in E. split; [exact E|]. simpl.
  by rewrite od_get_set_eq, od_set_fresh.
Qed.

(** Registration order is the order of the dictionary [fire] iterates. *)
Lemma register_callback_appends name callback em callback_id em' :
  EventManager.register_callback name callback em = Ok callback_id em' ->
  OD.get name (callbacks em')
    = Some (default [] (OD.get name (callbacks em)) ++ [(callback_id, callback)]).
Proof.
  unfold EventManager.register_callback.
  destruct (negb (c_callable callback)); [done|].
  destruct (OD.get name (events em)).
  - destruct (c_argspec callback) as [[arglen varargs]|]; [|done].
    destruct (_ && _); [done|]. intros H.
    by apply add_callback_appends in H as (_ & H & _).
  - intros H. by apply add_callback_appends in H as (_ & H & _).
Qed.

End event_manager_facts.

(** C10. For a callable callback and an event kind that is not registered,
    [register_callback] checks no arity (the callback's parameter count is
    unconstrained): given a draw that is not yet an identifier of that kind,
    it returns an identifier new for the kind, stores the callback under it
    after the callbacks the kind already had, and declares no event. *)
Theorem register_callback_unregistered_kind name callback em d :
  c_callable callback = true ->
  OD.get name (events em) = None ->
  d ∈ draws em ->
  d ∉ (default [] (OD.get name (callbacks em))).*1 ->
  exists callback_id em',
    EventManager.register_callback name callback em = Ok callback_id em'
    /\ (callback_id ∉ (default [] (OD.get name (callbacks em))).*1)
    /\ OD.get name (callbacks em')
         = Some (default [] (OD.get name (callbacks em)) ++ [(callback_id, callback)])
    /\ events em' = events em.
Proof.
  intros Hc He Hd Hfresh.
  unfold EventManager.register_callback. rewrite Hc, He. cbn [negb].
  destruct (fresh_id_spec _ _ _ Hd Hfresh) as (i & rest & Hf & Hi).
  assert (EventManager._add_callback name callback em
          = Ok i (Build_event_manager_t (events em)
                    (OD.set name (OD.set i callback (default [] (OD.get name (callbacks em))))
                       (callbacks em)) rest)) as Hrun.
  { unfold EventManager._add_callback. by rewrite Hf. }
  eexists _, _. split; [exact Hrun|]. by apply add_callback_appends in Hrun.
Qed.

Lemma register_callback_unregistered_kind_witness :
  exists callback_id em',
    EventManager.register_callback (SName "custom") seven_parameters em_privmsg
      = Ok callback_id em'
    /\ (callback_id ∉ (default [] (OD.get (SName "custom") (callbacks em_privmsg))).*1)
    /\ OD.get (SName "custom") (callbacks em')
         = Some (default [] (OD.get (SName "custom") (callbacks em_privmsg))
                 ++ [(callback_id, seven_parameters)])
    /\ events em' = events em_privmsg.
Proof.
  apply (register_callback_unregistered_kind (SName "custom") seven_parameters
           em_privmsg "k3Jd9a").
  - reflexivity.
  - reflexivity.
  - vm_compute. by left.
  - vm_compute. apply not_elem_of_nil.
Defined.

(** ** Firing an event *)

Section fire_facts.

Lemma call_spec owner c args b :
  exists o s',
    c_call c args (core b) = (o, s')
    /\ call owner c args b
       = (o, Build_bot_t s' (event_manager b) (plugin_manager b)
               (invoked b ++ [Build_invocation owner (c_name c) args o])).
Proof.
  unfold call. destruct (c_call c args (core b)) as [o s']. by exists o, s'.
Qed.

Lemma new_calls_app b b' new :
  invoked b' = invoked b ++ new -> new_calls b b' = new.
Proof. intros H. unfold new_calls. rewrite H. apply drop_app_length. Qed.

(** One round of the loop of [fire]. *)
Lemma fire_loop_round name params id cb cbs result b :
  EventManager.fire_loop name params ((id, cb) :: cbs) result b
  = let args := EventManager.fire_args name params cb in
    let o := (c_call cb args (core b)).1 in
    let b1 := Build_bot_t (c_call cb args (core b)).2 (event_manager b) (plugin_manager b)
                (invoked b ++ [Build_invocation id (c_name cb) args o]) in
    if EventManager.carries_on o
    then EventManager.fire_loop name params cbs (result_after o result) b1
    else match o with Returns v => Ok v b1 | _ => Raise TypeError b1 end.
Proof.
  simpl. unfold call.
  destruct (c_call cb (EventManager.fire_args name params cb) (core b)) as [o s'].
  destruct o as [v| | |d|]; simpl; try reflexivity.
  - by destruct (EventManager.is_stop v).
  - by destruct d.
Qed.

Lemma last_cons_cons {A} (x y : A) l : last (x :: y :: l) = last (y :: l).
Proof. reflexivity. Qed.

(** The whole run of the loop: the calls it logs, the tables each call
    starts from, where it ends and what it returns. *)
Lemma fire_loop_trace name params cbs result b :
  exists new states,
    invoked (state_of (EventManager.fire_loop name params cbs result b)) = invoked b ++ new
    /\ map called new = map (fire_call name params) (take (length new) cbs)
    /\ length states = S (length new)
    /\ states !! 0 = Some (core b)
    /\ states !! length new
         = Some (core (state_of (EventManager.fire_loop name params cbs result b)))
    /\ (forall i inv p s,
          new !! i = Some inv -> cbs !! i = Some p -> states !! i = Some s ->
          inv_outcome inv = (c_call p.2 (EventManager.fire_args name params p.2) s).1
          /\ states !! S i = Some (c_call p.2 (EventManager.fire_args name params p.2) s).2)
    /\ (forall i inv,
          new !! i = Some inv -> S i < length new ->
          EventManager.carries_on (inv_outcome inv) = true)
    /\ (length new < length cbs ->
          exists inv, last new = Some inv /\ EventManager.carries_on (inv_outcome inv) = false)
    /\ (forall inv v,
          last new = Some inv -> inv_outcome inv = Returns v ->
          EventManager.is_stop v = true ->
          exists b', EventManager.fire_loop name params cbs result b = Ok v b')
    /\ ((forall inv, last new = Some inv -> inv_outcome inv <> RaisesAssertion false) ->
          exists b', EventManager.fire_loop name params cbs result b
                     = Ok (last_returned result new) b').
Proof.
  revert result b. induction cbs as [|[id cb] cbs IH]; intros result b.
  - exists [], [core b]. simpl. rewrite app_nil_r.
    repeat split; try done; try (intros; lia).
    intros _. by eexists.
  - rewrite fire_loop_round. cbv zeta.
    set (args := EventManager.fire_args name params cb).
    destruct (c_call cb args (core b)) as [o s'] eqn:Ecall. cbn [fst snd].
    set (inv0 := Build_invocation id (c_name cb) args o).
    set (b1 := Build_bot_t s' (event_manager b) (plugin_manager b) (invoked b ++ [inv0])).
    destruct (EventManager.carries_on o) eqn:Ego.
    + destruct (IH (result_after o result) b1)
        as (new & states & Hlog & Hord & Hlen & H0 & Hend & Hstep & Hgo & Hshort & Hstop & Hres).
      exists (inv0 :: new), (core b :: states).
      split; [rewrite Hlog; simpl; by rewrite <- app_assoc|].
      split; [simpl; by rewrite Hord|].
      split; [simpl; by rewrite Hlen|].
      split; [done|].
      split; [exact Hend|].
      split.
      { intros [|i] inv p s Hi Hp Hs; simpl in Hi, Hp, Hs.
        - injection Hi as <-. injection Hp as <-. injection Hs as <-.
          simpl. fold args. rewrite Ecall. split; [done|]. simpl. exact H0.
        - exact (Hstep i inv p s Hi Hp Hs). }
      split.
      { intros [|i] inv Hi Hlt; simpl in Hi, Hlt.
        - by injection Hi as <-.
        - apply (Hgo i inv Hi). lia. }
      split.
      { simpl. intros Hlt. destruct Hshort as (inv & Hl & Hno); [lia|].
        exists inv. split; [|done]. destruct new; [done|]. by rewrite last_cons_cons. }
      split.
      { intros inv v Hl Ho Hv. destruct new as [|i1 new].
        - injection Hl as <-. simpl in Ho. subst o. simpl in Ego. by rewrite Hv in Ego.
        - rewrite last_cons_cons in Hl. exact (Hstop inv v Hl Ho Hv). }
      { intros Hl. simpl. apply Hres. intros inv Hi. apply Hl.
        destruct new; [done|]. by rewrite last_cons_cons. }
    + exists [inv0], [core b; s'].
      assert (state_of (match o with
                        | Returns v => Ok v b1
                        | _ => Raise TypeError b1
                        end) = b1) as Hst by (by destruct o).
      rewrite Hst.
      split; [done|]. split; [done|]. split; [done|]. split; [done|]. split; [done|].
      split.
      { intros [|i] inv p s Hi Hp Hs; simpl in Hi, Hp, Hs.
        - injection Hi as <-. injection Hp as <-. injection Hs as <-.
          simpl. fold args. by rewrite Ecall.
        - by rewrite lookup_nil in Hi. }
      split.
      { intros i inv Hi Hlt. simpl in Hlt. lia. }
      split.
      { intros _. by exists inv0. }
      split.
      { intros inv v [= <-] Ho Hv. simpl in Ho. subst o. by eexists. }
      { intros Hl. destruct o as [v| | |d|]; simpl in Ego; try discriminate.
        - simpl. by eexists.
        - subst d. by destruct (Hl inv0 eq_refl). }
Qed.

(** A callback after which the loop goes on is one round of it. *)
Lemma fire_loop_carries_on name params id cb cbs result b o s' :
  c_call cb (EventManager.fire_args name params cb) (core b) = (o, s') ->
  EventManager.carries_on o = true ->
  exists result',
    EventManager.fire_loop name params ((id, cb) :: cbs) result b
    = EventManager.fire_loop name params cbs result'
        (Build_bot_t s' (event_manager b) (plugin_manager b)
           (invoked b ++ [Build_invocation id (c_name cb)
                            (EventManager.fire_args name params cb) o])).
Proof.
  intros Hcall Hgo. simpl.
  destruct (call_spec id cb (EventManager.fire_args name params cb) b)
    as (o' & s'' & Hcall' & ->).
  rewrite Hcall in Hcall'. injection Hcall' as <- <-.
  destruct o as [v| | |d|]; simpl in Hgo.
  - apply negb_true_iff in Hgo. rewrite Hgo. by exists v.
  - by exists result.
  - by exists result.
  - subst d. by exists result.
  - by exists result.
Qed.

(** A callback that returns a stop sentinel ends the loop with it. *)
Lemma fire_loop_stops name params id cb cbs result b v s' :
  c_call cb (EventManager.fire_args name params cb) (core b) = (Returns v, s') ->
  EventManager.is_stop v = true ->
  EventManager.fire_loop name params ((id, cb) :: cbs) result b
  = Ok v (Build_bot_t s' (event_manager b) (plugin_manager b)
            (invoked b ++ [Build_invocation id (c_name cb)
                             (EventManager.fire_args name params cb) (Returns v)])).
Proof.
  intros Hcall Hstop. simpl.
  destruct (call_spec id cb (EventManager.fire_args name params cb) b)
    as (o' & s'' & Hcall' & ->).
  rewrite Hcall in Hcall'. injection Hcall' as <- <-.
  by rewrite Hstop.
Qed.

(** Callbacks that always let the loop go on, followed by one that always
    returns the stop sentinel [v]: these are called, and no other. *)
Lemma fire_loop_until_stop name params pre id cb post v result b :
  Forall (fun p : string * callable => always_carries_on p.2) pre ->
  (forall args s, (c_call cb args s).1 = Returns v) ->
  EventManager.is_stop v = true ->
  exists b' new,
    EventManager.fire_loop name params (pre ++ (id, cb) :: post) result b = Ok v b'
    /\ invoked b' = invoked b ++ new
    /\ map called new = map (fire_call name params) (pre ++ [(id, cb)]).
Proof.
  intros Hpre Hcb Hv. revert result b.
  induction Hpre as [|[i0 c0] pre Hc0 Hpre IH]; intros result b.
  - simpl app. rewrite fire_loop_round. cbv zeta.
    rewrite Hcb. simpl EventManager.carries_on. rewrite Hv. simpl negb. cbv iota.
    eexists _, [_]. split; [reflexivity|]. split; [reflexivity|]. simpl.
    reflexivity.
  - rewrite <- app_comm_cons, fire_loop_round. cbv zeta.
    pose proof (Hc0 (EventManager.fire_args name params c0) (core b)) as Hgo.
    simpl in Hgo. rewrite Hgo.
    match goal with |- context [EventManager.fire_loop _ _ _ ?r ?b1] =>
      destruct (IH r b1) as (b' & new & Hrun & Hlog & Hcalls) end.
    exists b'. eexists (_ :: new). split; [exact Hrun|].
    split; [rewrite Hlog; simpl; by rewrite <- app_assoc|].
    simpl. by rewrite Hcalls.
Qed.

End fire_facts.

(** C6. [fire] on a registered kind calls the kind's callbacks in the order
    of their registration: the calls it logs are, one by one and with the
    arguments of [fire], the first callbacks of the kind's dictionary, each
    run on the tables the previous one left. Every call but the last lets the
    loop go on, and when a callback is left uncalled the last call made is
    one that ends the loop. A callback that returns a stop sentinel is the
    last one called and [fire] returns that sentinel; otherwise [fire] returns
    what the last callback to return gave. If the callbacks up to some
    position always let the loop go on and the next one always returns a stop
    sentinel, exactly these are called, however many follow. With three
    callbacks of which the first lets the loop go on and the second returns
    the stop-all sentinel, exactly the first two are called and [fire] returns
    stop-all. *)
Theorem fire_in_order_until_stop name params b :
  OD.mem name (events (event_manager b)) = true ->
  (exists new states,
     invoked (state_of (EventManager.fire name params b)) = invoked b ++ new
     /\ map called new = map (fire_call name params) (take (length new) (registered name b))
     /\ length states = S (length new)
     /\ states !! 0 = Some (core b)
     /\ states !! length new = Some (core (state_of (EventManager.fire name params b)))
     /\ (forall i inv p s,
           new !! i = Some inv -> registered name b !! i = Some p -> states !! i = Some s ->
           inv_outcome inv = (c_call p.2 (EventManager.fire_args name params p.2) s).1
           /\ states !! S i = Some (c_call p.2 (EventManager.fire_args name params p.2) s).2)
     /\ (forall i inv,
           new !! i = Some inv -> S i < length new ->
           EventManager.carries_on (inv_outcome inv) = true)
     /\ (length new < length (registered name b) ->
           exists inv, last new = Some inv
                       /\ EventManager.carries_on (inv_outcome inv) = false)
     /\ (forall i inv v,
           new !! i = Some inv -> inv_outcome inv = Returns v ->
           EventManager.is_stop v = true ->
           S i = length new
           /\ exists b', EventManager.fire name params b = Ok v b')
     /\ ((forall inv, last new = Some inv -> inv_outcome inv <> RaisesAssertion false) ->
           exists b', EventManager.fire name params b = Ok (last_returned VNone new) b')) /\
  (forall pre id cb post v,
     registered name b = pre ++ (id, cb) :: post ->
     Forall (fun p : string * callable => always_carries_on p.2) pre ->
     (forall args s, (c_call cb args s).1 = Returns v) ->
     EventManager.is_stop v = true ->
     exists b',
       EventManager.fire name params b = Ok v b'
       /\ map called (new_calls b b') = map (fire_call name params) (pre ++ [(id, cb)])) /\
  (forall i1 c1 i2 c2 i3 c3 o1 s1 s2,
     OD.get name (callbacks (event_manager b)) = Some [(i1, c1); (i2, c2); (i3, c3)] ->
     c_call c1 (EventManager.fire_args name params c1) (core b) = (o1, s1) ->
     EventManager.carries_on o1 = true ->
     c_call c2 (EventManager.fire_args name params c2) s1
       = (Returns (VEvent Event.STOP_ALL), s2) ->
     exists b',
       EventManager.fire name params b = Ok (VEvent Event.STOP_ALL) b'
       /\ core b' = s2
       /\ invoked b'
          = invoked b
            ++ [Build_invocation i1 (c_name c1) (EventManager.fire_args name params c1) o1;
                Build_invocation i2 (c_name c2) (EventManager.fire_args name params c2)
                  (Returns (VEvent Event.STOP_ALL))]).
Proof.
  intros Hreg. split; [|split].
  - assert (exists b0,
              EventManager.fire name params b
              = EventManager.fire_loop name params (registered name b) VNone b0
              /\ core b0 = core b /\ invoked b0 = invoked b) as (b0 & Hfire & Hcore & Hinv).
    { unfold EventManager.fire, registered. rewrite Hreg. cbn [negb].
      destruct (OD.get name (callbacks (event_manager b))) as [cbs|] eqn:E; simpl.
      - by exists b.
      - by eexists. }
    rewrite Hfire.
    destruct (fire_loop_trace name params (registered name b) VNone b0)
      as (new & states & Hlog & Hord & Hlen & H0 & Hend & Hstep & Hgo & Hshort & Hstop & Hres).
    exists new, states. rewrite Hlog, Hinv, <- Hcore.
    repeat (split; [done|]). split; [|done].
    intros i inv v Hi Ho Hv.
    assert (S i = length new) as Hlast.
    { pose proof (lookup_lt_Some _ _ _ Hi) as Hlt.
      destruct (decide (S i < length new)) as [Hin|]; [|lia].
      pose proof (Hgo i inv Hi Hin) as Hc. rewrite Ho in Hc. simpl in Hc.
      by rewrite Hv in Hc. }
    split; [exact Hlast|].
    apply (Hstop inv v); [|done|done].
    rewrite last_lookup, <- Hlast. exact Hi.
  - intros pre id cb post v Hcbs Hpre Hcb Hv.
    assert (exists b0,
              EventManager.fire name params b
              = EventManager.fire_loop name params (pre ++ (id, cb) :: post) VNone b0
              /\ invoked b0 = invoked b) as (b0 & -> & Hinv).
    { unfold EventManager.fire. unfold registered in Hcbs. rewrite Hreg. cbn [negb].
      destruct (OD.get name (callbacks (event_manager b))) as [cbs|] eqn:E; simpl in Hcbs.
      - subst cbs. by exists b.
      - by destruct pre. }
    destruct (fire_loop_until_stop name params pre id cb post v VNone b0 Hpre Hcb Hv)
      as (b' & new & Hrun & Hlog & Hcalls).
    exists b'. split; [exact Hrun|].
    rewrite Hinv in Hlog. by rewrite (new_calls_app _ _ _ Hlog).
  - intros i1 c1 i2 c2 i3 c3 o1 s1 s2 Hcbs H1 Hgo H2.
    unfold EventManager.fire. rewrite Hreg, Hcbs. cbn [negb].
    destruct (fire_loop_carries_on name params i1 c1 [(i2, c2); (i3, c3)] VNone b o1 s1
                H1 Hgo) as (r & ->).
    rewrite (fire_loop_stops name params i2 c2 [(i3, c3)] r _ (VEvent Event.STOP_ALL) s2);
      [|exact H2|reflexivity].
    eexists. split; [reflexivity|]. split; [reflexivity|].
    simpl. by rewrite <- app_assoc.
Qed.

Lemma fire_in_order_until_stop_witness :
  exists b',
    EventManager.fire (EName Event.PRIVMSG)
      [AStr "alice!al@host"; AStr "#test"; AStr "hello"] three_callbacks
    = Ok (VEvent Event.STOP_ALL) b'
    /\ map inv_name (invoked b') = ["first"; "second"].
Proof.
  destruct (fire_in_order_until_stop (EName Event.PRIVMSG)
              [AStr "alice!al@host"; AStr "#test"; AStr "hello"] three_callbacks eq_refl)
    as (_ & _ & H).
  destruct (H "k3Jd9a" (constant_callback "first" (Returns (VObj 1)))
              "Qw81Zx" (constant_callback "second" (Returns (VEvent Event.STOP_ALL)))
              "m0Lp2T" (constant_callback "third" (Returns VNone))
              (Returns (VObj 1)) (ForkingDongles.signedOn "bot")
              (ForkingDongles.signedOn "bot") eq_refl eq_refl eq_refl eq_refl)
    as (b' & Hrun & _ & Hlog).
  exists b'. split; [exact Hrun|]. rewrite Hlog. reflexivity.
Defined.

(** ** Routing a command *)

Section fire_command_facts.

(** A round of the routing loop that goes on to the next command. *)
Local Ltac next_command IH r b1 :=
  let new := fresh "new" in
  let Hn := fresh "Hn" in
  let Hp := fresh "Hp" in
  let Hm := fresh "Hm" in
  destruct (IH r b1) as (new & Hn & Hp & Hm);
  eexists (_ :: new);
  split; [rewrite Hn; simpl; rewrite <- app_assoc; reflexivity|];
  split; [simpl; by apply sublist_skip | by rewrite Hm].

(** A round that ends the routing pass. *)
Local Ltac last_command :=
  eexists [_];
  split; [reflexivity|];
  split; [simpl; apply sublist_skip, sublist_nil_l | reflexivity].

Lemma fire_command_loop_spec cmd params user channel message cmds result b :
  exists new,
    invoked (state_of (PluginManager.fire_command_loop cmd params user channel message
                         cmds result b)) = invoked b ++ new
    /\ map inv_owner new `sublist_of` cmds.*1
    /\ plugin_manager (state_of (PluginManager.fire_command_loop cmd params user channel
                                   message cmds result b)) = plugin_manager b.
Proof.
  revert result b. induction cmds as [|[owner command] cmds IH]; intros result b.
  - exists []. simpl. rewrite app_nil_r. repeat split. constructor.
  - cbn [PluginManager.fire_command_loop].
    destruct (match c_commands command with
              | Some cs => Py.inb cmd cs
              | None => false
              end).
    + match goal with |- context [call owner command ?a b] =>
        destruct (call_spec owner command a b) as (o & s' & _ & ->) end.
      destruct o as [v| | |d|].
      * destruct (bool_decide (v = VEvent Event.STOP_ALL)); [last_command|].
        next_command IH v (Build_bot_t s' (event_manager b) (plugin_manager b)
          (invoked b ++ [Build_invocation owner (c_name command)
             ((if c_ismethod command then [] else [ABot])
              ++ [AStr cmd; AUser user; AObj channel; AStr params]) (Returns v)])).
      * next_command IH result (Build_bot_t s' (event_manager b) (plugin_manager b)
          (invoked b ++ [Build_invocation owner (c_name command)
             ((if c_ismethod command then [] else [ABot])
              ++ [AStr cmd; AUser user; AObj channel; AStr params]) RaisesNeedsArgs])).
      * next_command IH result (Build_bot_t s' (event_manager b) (plugin_manager b)
          (invoked b ++ [Build_invocation owner (c_name command)
             ((if c_ismethod command then [] else [ABot])
              ++ [AStr cmd; AUser user; AObj channel; AStr params]) RaisesRejected])).
      * destruct d; unfold bind, _deferassertion; simpl; [|last_command].
        next_command IH result (Build_bot_t s' (event_manager b) (plugin_manager b)
          (invoked b ++ [Build_invocation owner (c_name command)
             ((if c_ismethod command then [] else [ABot])
              ++ [AStr cmd; AUser user; AObj channel; AStr params])
             (RaisesAssertion true)])).
      * next_command IH result (Build_bot_t s' (event_manager b) (plugin_manager b)
          (invoked b ++ [Build_invocation owner (c_name command)
             ((if c_ismethod command then [] else [ABot])
              ++ [AStr cmd; AUser user; AObj channel; AStr params]) RaisesOther])).
    + destruct (match c_regex command with
                | Some re => re message
                | None => false
                end).
      * match goal with |- context [call owner command ?a b] =>
          destruct (call_spec owner command a b) as (o & s' & _ & ->) end.
        destruct o as [v| | |d|].
        -- destruct (bool_decide (v = VEvent Event.STOP_ALL)); [last_command|].
           next_command IH v (Build_bot_t s' (event_manager b) (plugin_manager b)
             (invoked b ++ [Build_invocation owner (c_name command)
                ((if c_ismethod command then [] else [ABot])
                 ++ [AUser user; AObj channel; AStr message]) (Returns v)])).
        -- next_command IH result (Build_bot_t s' (event_manager b) (plugin_manager b)
             (invoked b ++ [Build_invocation owner (c_name command)
                ((if c_ismethod command then [] else [ABot])
                 ++ [AUser user; AObj channel; AStr message]) RaisesNeedsArgs])).
        -- next_command IH result (Build_bot_t s' (event_manager b) (plugin_manager b)
             (invoked b ++ [Build_invocation owner (c_name command)
                ((if c_ismethod command then [] else [ABot])
                 ++ [AUser user; AObj channel; AStr message]) RaisesRejected])).
        -- destruct d; unfold bind, _deferassertion; simpl; [|last_command].
           next_command IH result (Build_bot_t s' (event_manager b) (plugin_manager b)
             (invoked b ++ [Build_invocation owner (c_name command)
                ((if c_ismethod command then [] else [ABot])
                 ++ [AUser user; AObj channel; AStr message]) (RaisesAssertion true)])).
        -- next_command IH result (Build_bot_t s' (event_manager b) (plugin_manager b)
             (invoked b ++ [Build_invocation owner (c_name command)
                ((if c_ismethod command then [] else [ABot])
                 ++ [AUser user; AObj channel; AStr message]) RaisesOther])).
      * destruct (IH result b) as (new & Hn & Hp & Hm).
        exists new. split; [done|]. split; [by apply sublist_cons | done].
Qed.

(** Every command [itercommands] yields comes from a unit that has not
    blacklisted the channel. *)
Lemma itercommands_owner channel pm n :
  n ∈ (PluginManager.itercommands (Some channel) pm).*1 ->
  exists p, (n, p) ∈ plugins pm /\ py_in channel (Plugin.blacklist p) = false.
Proof.
  unfold PluginManager.itercommands.
  induction (plugins pm) as [|[n' p'] l IH]; simpl; [by intros ?%elem_of_nil|].
  rewrite fmap_app, elem_of_app. intros [Hin|Hin].
  - destruct (py_in channel (Plugin.blacklist p')) eqn:E;
      [by apply elem_of_nil in Hin|].
    apply list_elem_of_fmap in Hin as ([n0 c] & -> & Hin).
    apply list_elem_of_fmap in Hin as (c' & [= -> ->] & _).
    exists p'. split; [by left | done].
  - destruct (IH Hin) as (p & Hp & Hb). exists p. split; [by right | done].
Qed.

(** [itercommands] yields in dictionary order. *)
Lemma itercommands_order channel pm :
  (PluginManager.itercommands channel pm).*1 `sublist_of` dictionary_order pm.
Proof.
  unfold PluginManager.itercommands, dictionary_order.
  induction (plugins pm) as [|[n' p'] l IH]; simpl; [constructor|].
  rewrite fmap_app. apply sublist_app; [|exact IH].
  destruct (match channel with
            | Some ch => py_in ch (Plugin.blacklist p')
            | None => false
            end); [apply sublist_nil_l|].
  induction (Plugin.commands p') as [|c cs IHc]; simpl; [constructor|].
  by apply sublist_skip.
Qed.

End fire_command_facts.

(** C4. In a call of [fire_command], a plugin unit whose blacklist contains
    the invoking channel is skipped: whatever the message, none of the
    handler calls made is a call of one of that unit's handlers. *)
Theorem fire_command_skips_blacklisted user channel message b n p :
  NoDup (plugins (plugin_manager b)).*1 ->
  OD.get n (plugins (plugin_manager b)) = Some p ->
  py_in channel (Plugin.blacklist p) = true ->
  exists new,
    invoked (state_of (PluginManager.fire_command user channel message b))
      = invoked b ++ new
    /\ forall inv, inv ∈ new -> inv_owner inv <> n.
Proof.
  intros Hnd Hp Hbl. unfold PluginManager.fire_command.
  destruct (Py.partition " " message) as [[cmd sep] params].
  destruct (fire_command_loop_spec cmd params user channel message
              (PluginManager.itercommands (Some channel) (plugin_manager b)) VNone b)
    as (new & Hnew & Hsub & _).
  exists new. split; [exact Hnew|].
  intros inv Hinv Hown.
  assert (n ∈ (PluginManager.itercommands (Some channel) (plugin_manager b)).*1) as Hn.
  { eapply elem_of_sublist; [|exact Hsub].
    rewrite <- Hown. apply list_elem_of_fmap. by exists inv. }
  apply itercommands_owner in Hn as (p' & Hin & Hfree).
  rewrite (od_elem_get _ _ _ Hnd Hin) in Hp. injection Hp as ->. congruence.
Qed.

Lemma fire_command_skips_blacklisted_witness :
  exists new,
    invoked (state_of (PluginManager.fire_command visitor (OChannel test_channel)
                         "hello there" zeta_muted))
      = invoked zeta_muted ++ new
    /\ forall inv, inv ∈ new -> inv_owner inv <> "zeta".
Proof.
  eapply (fire_command_skips_blacklisted visitor (OChannel test_channel) "hello there"
            zeta_muted "zeta").
  - vm_compute. apply NoDup_cons. split.
    + by intros [?|?%elem_of_nil]%elem_of_cons.
    + apply NoDup_singleton.
  - vm_compute. reflexivity.
  - reflexivity.
Defined.

Lemma fire_command_not_sorted :
  ~ visits_sorted zeta_then_alpha visitor (OChannel test_channel) "hello there".
Proof. unfold visits_sorted. vm_compute. discriminate. Qed.

(** C5, as the code has it. In a call of [fire_command] the plugin units are
    visited in the order of the plugin dictionary: the owners of the calls
    made are, in order, drawn from the dictionary's keys in their order, and
    assigning a key that the dictionary does not hold puts it last. The
    order is the same for every call on the same dictionary; it is not the
    ascending order of the identifiers. *)
Theorem fire_command_dictionary_order user channel message b :
  (exists new,
     invoked (state_of (PluginManager.fire_command user channel message b))
       = invoked b ++ new
     /\ map inv_owner new `sublist_of` dictionary_order (plugin_manager b)) /\
  (forall n (p : Plugin.t) (d : list (string * Plugin.t)),
     n ∉ d.*1 -> (OD.set n p d).*1 = d.*1 ++ [n]).
Proof.
  split.
  - unfold PluginManager.fire_command.
    destruct (Py.partition " " message) as [[cmd sep] params].
    destruct (fire_command_loop_spec cmd params user channel message
                (PluginManager.itercommands (Some channel) (plugin_manager b)) VNone b)
      as (new & Hnew & Hsub & _).
    exists new. split; [exact Hnew|].
    etrans; [exact Hsub | apply itercommands_order].
  - intros n p d Hn. rewrite (od_set_fresh _ _ _ Hn). by rewrite fmap_app.
Qed.

(** ** Loading and reloading *)

Section load_facts.

Lemma length_remove x l : x ∈ l -> S (length (Py.remove x l)) = length l.
Proof.
  induction l as [|y l IH]; simpl; [by intros ?%elem_of_nil|].
  destruct (decide (x = y)) as [->|Hne]; [done|].
  intros [?|Hin]%elem_of_cons; [done|]. simpl. by rewrite IH.
Qed.

(** The unregistering loop ends because its index passes the end of the
    list: more fuel than the length of the list changes nothing. *)
Lemma unregister_ids_fuel fuel i l name b :
  length (held l name b) - i <= fuel ->
  PluginManager.unregister_ids (S fuel) i l name b
  = PluginManager.unregister_ids fuel i l name b.
Proof.
  revert i b. induction fuel as [|fuel IH]; intros i b Hlen.
  - cbn [PluginManager.unregister_ids]. unfold bind, get.
    fold (held l name b).
    assert (length (held l name b) <= i) as Hge
      by (revert Hlen; generalize (length (held l name b)); intros; lia).
    by rewrite (lookup_ge_None_2 _ _ Hge).
  - change (PluginManager.unregister_ids (S (S fuel)) i l name b)
      with ((b0 <- get ;;
             match held l name b0 !! i with
             | None => ret tt
             | Some callback_id =>
                 on_em (EventManager.unregister_callback name callback_id) ;;;
                 on_pm (modify (PluginManager.with_store (fun st =>
                   <[l := OD.set name (Py.remove callback_id (held l name b0))
                            (default [] (st !! l))]> st))) ;;;
                 PluginManager.unregister_ids (S fuel) (S i) l name
             end)%py b).
    change (PluginManager.unregister_ids (S fuel) i l name b)
      with ((b0 <- get ;;
             match held l name b0 !! i with
             | None => ret tt
             | Some callback_id =>
                 on_em (EventManager.unregister_callback name callback_id) ;;;
                 on_pm (modify (PluginManager.with_store (fun st =>
                   <[l := OD.set name (Py.remove callback_id (held l name b0))
                            (default [] (st !! l))]> st))) ;;;
                 PluginManager.unregister_ids fuel (S i) l name
             end)%py b).
    unfold bind at 1 4, get.
    destruct (held l name b !! i) as [callback_id|] eqn:E; [|done].
    assert (callback_id ∈ held l name b) as Hin by (by eapply list_elem_of_lookup_2).
    unfold bind at 1 3.
    destruct (on_em (EventManager.unregister_callback name callback_id) b)
      as [[] b1|e b1|b1] eqn:E1; [|done|done].
    assert (plugin_manager b1 = plugin_manager b) as Hpm.
    { revert E1. unfold on_em, lift, EventManager.unregister_callback.
      destruct (OD.get name (callbacks (event_manager b))); [|by intros [= <-]].
      destruct (negb _); by intros [= <-]. }
    unfold bind, on_pm, lift, modify. apply IH.
    unfold held, PluginManager.ids_at. simpl. rewrite Hpm.
    rewrite lookup_insert_eq. simpl. rewrite od_get_set_eq. simpl.
    pose proof (length_remove _ _ Hin) as Hrem.
    unfold held, PluginManager.ids_at in Hrem, Hlen. lia.
Qed.

End load_facts.

(** C3. What a reload does to the previous unit. [seen] is loaded with three
    callbacks for [PRIVMSG]. A reload that succeeds leaves one of the three
    old identifiers registered next to the new one: the unregistering loop
    removes from the list it iterates and so skips every second identifier.
    A reload whose callback registration fails goes on past its [except]
    clause (there is no [continue]), unloads the previous unit and stops on
    [UnboundLocalError]. A reload whose import fails leaves everything as it
    was. *)
Theorem reload_disturbs_previous_unit :
  registered_ids (EName Event.PRIVMSG) seen_loaded = ["k3Jd9a"; "Qw81Zx"; "m0Lp2T"] /\
  (exists b',
     PluginManager.load (disk_seen seen_one) ["seen"] seen_loaded = Ok [] b'
     /\ (plugins (plugin_manager b')).*1 = ["seen"]
     /\ registered_ids (EName Event.PRIVMSG) b' = ["Qw81Zx"; "Ab12Cd"]) /\
  (exists b',
     PluginManager.load (disk_seen seen_broken) ["seen"] seen_loaded
       = Raise UnboundLocalError b'
     /\ plugins (plugin_manager b') = []
     /\ registered_ids (EName Event.PRIVMSG) b' = ["Qw81Zx"]) /\
  PluginManager.load (fun _ => None) ["seen"] seen_loaded = Ok ["seen"] seen_loaded.
Proof.
  split; [vm_compute; reflexivity|]. split; [|split].
  - eexists. split; [vm_compute; reflexivity|]. split; vm_compute; reflexivity.
  - eexists. split; [vm_compute; reflexivity|]. split; vm_compute; reflexivity.
  - vm_compute. reflexivity.
Qed.

(** A blacklist that holds channel names never matches the Channel object
    [privmsg] routes with. *)
Remark name_blacklist_never_matches (c : Channel.t) (names : list string) :
  py_in (OChannel c) (OStr <$> names) = false.
Proof. induction names as [|n names IH]; simpl; [done | exact IH]. Qed.

(** ** Every reachable state of the tables is well formed *)

Section reachable_facts.
Import ForkingDongles.
Local Open Scope py_scope.

Lemma keeps_wf_bind {A B} (m : M t A) (k : A -> M t B) :
  keeps_wf m -> (forall a, keeps_wf (k a)) -> keeps_wf (bind m k).
Proof.
  intros Hm Hk s Hs. unfold bind. specialize (Hm s Hs).
  destruct (m s) as [a s'|e s'|s']; simpl in *; [by apply Hk | done | done].
Qed.

Lemma keeps_wf_ret {A} (a : A) : keeps_wf (ret a).
Proof. by intros s Hs. Qed.

Lemma keeps_wf_raise {A} e : keeps_wf (@raise t A e).
Proof. by intros s Hs. Qed.

Lemma keeps_wf_on_channel channel f :
  (forall c, Channel.users (f c) = Channel.users c) ->
  keeps_wf (on_channel channel f).
Proof.
  intros Hf s Hs. apply wf_on_channel; [|done]. intros c. by rewrite Hf.
Qed.

Lemma op_translations_not_users mode a :
  Channel.op_translations mode = Some a -> a <> Channel.Users.
Proof.
  unfold Channel.op_translations.
  repeat (destruct (decide _); [by intros [= <-]|]). done.
Qed.

(** [Channel.setMode] never touches the membership list. *)
Lemma users_setMode added mode arg c :
  Channel.users (Channel.setMode added mode arg c) = Channel.users c.
Proof.
  unfold Channel.setMode.
  destruct added, arg as [a|];
    try (destruct (Channel.op_translations mode) as [at_|] eqn:Hop;
         [apply op_translations_not_users in Hop|]);
    repeat (match goal with |- context [if ?b then _ else _] => destruct b end);
    try reflexivity; by destruct at_.
Qed.

Lemma keeps_wf_modeChanged_loop apply x modes args :
  (forall m arg, keeps_wf (apply m arg)) ->
  keeps_wf (modeChanged_loop apply x modes args).
Proof.
  intros Happly. revert x. induction modes as [|m modes IH]; intros x; simpl.
  - apply keeps_wf_ret.
  - destruct (args !! x) as [arg|]; [|apply keeps_wf_raise].
    apply keeps_wf_bind; [apply Happly | intros _; apply IH].
Qed.

Lemma keeps_wf_modeChanged user channel added modes args :
  keeps_wf (modeChanged user channel added modes args).
Proof.
  intros s Hs. unfold modeChanged, bind at 1, get.
  destruct (negb (Py.startswith "#" channel)).
  - destruct (bool_decide _); [|done].
    apply keeps_wf_modeChanged_loop; [|done].
    intros m arg s1 [Hu1 Hc1]. unfold bind, get, getitem. simpl.
    destruct (users s1 !! Py.lower channel) as [u|] eqn:E; simpl; [|by split].
    split; [|exact Hc1]. intros k u'. simpl.
    intros [[<- <-]|[_ H]]%lookup_insert_Some; [|by apply Hu1].
    rewrite (Hu1 _ _ E). unfold User.setMode.
    by repeat (match goal with |- context [if ?b then _ else _] => destruct b end).
  - destruct (bool_decide _); [|done].
    apply keeps_wf_modeChanged_loop; [|done].
    intros m arg. apply keeps_wf_on_channel. intros c. apply users_setMode.
Qed.

Lemma keeps_wf_addUser a : keeps_wf (addUser a).
Proof.
  intros s [Hu Hc].
  destruct (addUser_ok a s) as (u & s' & -> & Hch & Hwf). simpl.
  split; [by apply Hwf|]. intros k c. rewrite Hch. apply Hc.
Qed.

Lemma keeps_wf_namreply_loop mt channel nicks modes args :
  keeps_wf (namreply_loop mt channel nicks modes args).
Proof.
  revert modes args. induction nicks as [|nk nicks IH]; intros modes args; simpl.
  - apply keeps_wf_ret.
  - destruct (Py.head nk) as [h|]; [|apply keeps_wf_raise].
    destruct (mt !! h) as [m|].
    + apply keeps_wf_bind; [apply keeps_wf_addUser|]. intros _.
      apply keeps_wf_bind; [|intros _; apply IH].
      intros s Hs. apply wf_on_channel; [apply NoDup_addUser | done].
    + apply keeps_wf_bind; [apply keeps_wf_addUser|]. intros _.
      apply keeps_wf_bind; [|intros _; apply IH].
      intros s Hs. apply wf_on_channel; [apply NoDup_addUser | done].
Qed.

Lemma keeps_wf_NAMREPLY prefix params : keeps_wf (irc_RPL_NAMREPLY prefix params).
Proof.
  unfold irc_RPL_NAMREPLY.
  destruct (rev params) as [|nicks [|channel rest]]; try apply keeps_wf_raise.
  intros s Hs. unfold bind at 1, get.
  apply keeps_wf_bind; [apply keeps_wf_namreply_loop | | done].
  intros r. apply keeps_wf_modeChanged.
Qed.

Lemma keeps_wf_userRenamed old new : keeps_wf (userRenamed old new).
Proof.
  intros s [Hu Hc]. unfold userRenamed, bind at 1, get. unfold bind at 1, getitem.
  destruct (users s !! Py.lower old) as [u|] eqn:E; simpl; [|by split].
  pose proof (Hu _ _ E) as Hkey.
  unfold renameUser, bind, modify, get, getitem. simpl.
  destruct (decide (Py.lower new = Py.lower (User.nick u))) as [Heq|Hne].
  - rewrite Heq, lookup_insert_eq. simpl. rewrite lookup_delete_eq. simpl.
    split; [|exact Hc]. intros k u'. simpl.
    intros [Hk [[Hk' <-]|[_ H]]%lookup_insert_Some]%lookup_delete_Some;
      [done | by apply Hu].
  - rewrite lookup_insert_ne by done. rewrite <- Hkey, E. simpl.
    rewrite lookup_delete_ne by congruence.
    rewrite lookup_insert_eq. simpl.
    split; [|exact Hc]. intros k u'. simpl.
    intros [[<- <-]|[Hk1 H]]%lookup_insert_Some; [done|].
    apply lookup_delete_Some in H as [_ H].
    apply lookup_insert_Some in H as [[Hk2 <-]|[_ H]]; [done | by apply Hu].
Qed.

Lemma keeps_wf_whois_flag flag params : keeps_wf (whois_flag flag params).
Proof.
  intros s [Hu Hc]. unfold whois_flag.
  destruct (params !! 1%nat) as [n|]; [|by split]. simpl.
  split; [|exact Hc]. intros k u'. simpl.
  destruct (users s !! Py.lower n) as [u|] eqn:E; [|by apply Hu].
  intros [[<- <-]|[_ H]]%lookup_insert_Some; [|by apply Hu].
  rewrite (Hu _ _ E). unfold User.setMode.
  by repeat (match goal with |- context [if ?b then _ else _] => destruct b end).
Qed.

Lemma keeps_wf_WHOISUSER prefix params : keeps_wf (irc_RPL_WHOISUSER prefix params).
Proof.
  intros s [Hu Hc]. unfold irc_RPL_WHOISUSER.
  destruct params as [|p0 [|n [|u [|h rest]]]]; try by split.
  simpl. split; [|exact Hc]. intros k u'. simpl.
  set (w := User.init _).
  destruct (users s !! Py.lower (User.nick w)) as [old|] eqn:E.
  - intros [[<- <-]|[_ H]]%lookup_insert_Some; [|by apply Hu].
    simpl. by apply Hu.
  - intros [[<- <-]|[_ H]]%lookup_insert_Some; [done | by apply Hu].
Qed.

Lemma keeps_wf_handle h : keeps_wf (handle h).
Proof.
  destruct h; simpl.
  - intros s. apply wf_joined.
  - intros s [Hu Hc]. split; [exact Hu|]. intros k c. simpl.
    intros [_ H]%lookup_delete_Some. by eapply Hc.
  - intros s [Hu Hc]. split; [exact Hu|]. intros k c. simpl.
    intros [_ H]%lookup_delete_Some. by eapply Hc.
  - intros s. apply wf_userJoined.
  - intros s. apply wf_userLeft.
  - intros s [Hu Hc].
    destruct (userQuit_run user message s) as (s' & -> & Hch & Hus). simpl.
    split.
    + intros k u'. rewrite Hus. intros [_ H]%lookup_delete_Some. by apply Hu.
    + intros k c. rewrite Hch. apply Hc.
  - apply keeps_wf_userRenamed.
  - intros s. apply (wf_userLeft user channel).
  - apply keeps_wf_modeChanged.
  - apply keeps_wf_NAMREPLY.
  - unfold irc_RPL_BANLIST.
    destruct params as [|p0 [|c [|m [|u rest]]]]; try apply keeps_wf_raise.
    apply keeps_wf_modeChanged.
  - apply keeps_wf_WHOISUSER.
  - apply keeps_wf_whois_flag.
  - apply keeps_wf_whois_flag.
  - apply keeps_wf_whois_flag.
  - by intros s Hs.
Qed.

End reachable_facts.

(** X1. The handlers of [core.py] keep the tables well formed. From tables
    in which every user is filed under the lowercase of its own nick and no
    membership list holds a nick twice, whatever PREFIX table the session
    holds, and whatever sequence of protocol events is processed, each
    handler returning or raising, the tables are again of that form. *)
Theorem reachable_tables_wf hs s : tables_wf s -> tables_wf (run hs s).
Proof.
  revert s. unfold run. induction hs as [|h hs IH]; intros s Hs; simpl; [done|].
  apply IH. by apply keeps_wf_handle.
Qed.

Lemma reachable_tables_wf_witness :
  tables_wf
    (run [On_joined "#a"; On_userJoined "Alice!al@host" "#a"; On_ISUPPORT_PREFIX None;
          On_NAMREPLY "irc.example.org" ["bot"; "="; "#a"; "@alice +Bob"];
          On_userRenamed "alice" "Alice"; On_userQuit "bob!b@host" "bye";
          On_BANLIST "irc.example.org" ["bot"; "#a"]]
       (ForkingDongles.signedOn "bot")).
Proof.
  refine (reachable_tables_wf _ (ForkingDongles.signedOn "bot") _).
  split; intros k x H; simpl in H; by rewrite lookup_empty in H.
Defined.

(** ** The registry and the domain objects *)

Section registry_facts.
Import ForkingDongles.

Lemma partition_char c a b :
  Py.contains (String c EmptyString) a = false ->
  Py.partition (String c EmptyString) (a +:+ String c b) = (a, String c EmptyString, b).
Proof.
  induction a as [|x a IH]; simpl.
  - intros _. by rewrite decide_True.
  - destruct (decide (c = x)) as [->|Hne]; simpl; [done|].
    intros H. by rewrite (IH H).
Qed.

Lemma partition_absent c a :
  Py.contains (String c EmptyString) a = false ->
  Py.partition (String c EmptyString) a = (a, EmptyString, EmptyString).
Proof.
  induction a as [|x a IH]; simpl; [done|].
  destruct (decide (c = x)) as [->|Hne]; simpl; [done|].
  intros H. by rewrite (IH H).
Qed.

End registry_facts.

(** X2. [User(mask)] takes a mask [nick!user@host] apart again: when the
    nick holds no [!] and the user name no [@], the three fields are the
    three parts, with no modes and [is_self] unset. A mask without [!] is all
    nick. *)
Theorem User_init_mask n u h :
  Py.contains "!" n = false ->
  Py.contains "@" u = false ->
  User.init (n +:+ ("!" +:+ (u +:+ ("@" +:+ h)))) = User.mk n u h "" false
  /\ User.init n = User.mk n "" "" "" false.
Proof.
  intros Hn Hu. unfold User.init. split.
  - change ("!" +:+ (u +:+ ("@" +:+ h))) with (String "!" (u +:+ String "@" h)).
    rewrite (partition_char "!" n _ Hn). by rewrite (partition_char "@" u h Hu).
  - by rewrite (partition_absent "!" n Hn).
Qed.

Lemma User_init_mask_witness :
  User.init ("alice" +:+ ("!" +:+ ("al" +:+ ("@" +:+ "example.org"))))
    = User.mk "alice" "al" "example.org" "" false
  /\ User.init "alice" = User.mk "alice" "" "" "" false.
Proof. apply (User_init_mask "alice" "al" "example.org"); reflexivity. Defined.

(** X3. The registry is keyed without regard to casing: adding a user whose
    nick differs from a tracked one only in casing returns the tracked User
    and changes nothing, so neither a second entry nor a second WHOIS
    results. *)
Theorem addUser_case_insensitive m1 m2 s :
  Py.lower (User.nick (User.init m1)) = Py.lower (User.nick (User.init m2)) ->
  exists u s1,
    ForkingDongles.addUser (ForkingDongles.Mask m1) s = Ok u s1
    /\ ForkingDongles.users s1 !! Py.lower (User.nick (User.init m1)) = Some u
    /\ ForkingDongles.addUser (ForkingDongles.Mask m2) s1 = Ok u s1.
Proof.
  intros Hk. unfold ForkingDongles.addUser. simpl.
  destruct (ForkingDongles.users s !! Py.lower (User.nick (User.init m1)))
    as [u0|] eqn:E; unfold getitem.
  - exists u0, s. rewrite E. split; [done|]. split; [done|].
    rewrite <- Hk, E. simpl. by rewrite E.
  - eexists _, _. simpl. rewrite lookup_insert_eq. split; [reflexivity|].
    simpl. rewrite lookup_insert_eq. split; [reflexivity|].
    rewrite <- Hk, lookup_insert_eq. simpl. by rewrite lookup_insert_eq.
Qed.

Lemma addUser_case_insensitive_witness :
  exists u s1,
    ForkingDongles.addUser (ForkingDongles.Mask "Alice!al@host")
      (ForkingDongles.signedOn "bot") = Ok u s1
    /\ ForkingDongles.users s1 !! Py.lower (User.nick (User.init "Alice!al@host")) = Some u
    /\ ForkingDongles.addUser (ForkingDongles.Mask "ALICE") s1 = Ok u s1.
Proof.
  apply (addUser_case_insensitive "Alice!al@host" "ALICE" (ForkingDongles.signedOn "bot")).
  reflexivity.
Defined.

Section channel_list_facts.

Lemma getattr_remove_in_same nk c a :
  Channel.getattr a (Channel.remove_in nk c a) =
  if Py.inb (Py.lower nk) (Channel.getattr a c)
  then Py.remove (Py.lower nk) (Channel.getattr a c) else Channel.getattr a c.
Proof.
  unfold Channel.remove_in.
  destruct (Py.inb (Py.lower nk) (Channel.getattr a c)); [|done].
  apply getattr_setattr.
Qed.

Lemma getattr_removeUser a nk c :
  Channel.getattr a (Channel.removeUser nk c) =
  if Py.inb (Py.lower nk) (Channel.getattr a c)
  then Py.remove (Py.lower nk) (Channel.getattr a c) else Channel.getattr a c.
Proof.
  unfold Channel.removeUser, Channel.all_attrs. cbn [foldl].
  destruct a;
    rewrite ?getattr_remove_in by done;
    rewrite getattr_remove_in_same;
    by rewrite ?getattr_remove_in by done.
Qed.

Lemma getattr_rename_in nk new c a b :
  a <> b -> Channel.getattr b (Channel.rename_in nk new c a) = Channel.getattr b c.
Proof.
  intros Hab. unfold Channel.rename_in.
  destruct (Py.inb (Py.lower nk) (Channel.getattr a c)); [|done].
  by destruct a, b.
Qed.

Lemma getattr_rename_in_same nk new c a :
  Channel.getattr a (Channel.rename_in nk new c a) =
  if Py.inb (Py.lower nk) (Channel.getattr a c)
  then Py.remove (Py.lower nk) (Channel.getattr a c) ++ [Py.lower new]
  else Channel.getattr a c.
Proof.
  unfold Channel.rename_in.
  destruct (Py.inb (Py.lower nk) (Channel.getattr a c)); [|done].
  apply getattr_setattr.
Qed.

Lemma getattr_renameUser a nk new c :
  Channel.getattr a (Channel.renameUser nk new c) =
  if Py.inb (Py.lower nk) (Channel.getattr a c)
  then Py.remove (Py.lower nk) (Channel.getattr a c) ++ [Py.lower new]
  else Channel.getattr a c.
Proof.
  unfold Channel.renameUser, Channel.all_attrs. cbn [foldl].
  destruct a;
    rewrite ?getattr_rename_in by done;
    rewrite getattr_rename_in_same;
    by rewrite ?getattr_rename_in by done.
Qed.

Lemma bans_modes_remove_in nk c a :
  Channel.bans (Channel.remove_in nk c a) = Channel.bans c
  /\ Channel.modes (Channel.remove_in nk c a) = Channel.modes c.
Proof.
  unfold Channel.remove_in.
  destruct (Py.inb (Py.lower nk) (Channel.getattr a c)); [|done]. by destruct a.
Qed.

End channel_list_facts.

(** X4. [Channel.removeUser] takes the lowercase nick out of the membership
    list and of each of the five privilege lists, and out of nothing else:
    in each list every other entry stays, nothing is added, a list without
    duplicates no longer holds the nick, and the ban list and the mode string
    are as before. *)
Theorem Channel_removeUser_lists nk c a :
  NoDup (Channel.getattr a c) ->
  (Py.lower nk ∉ Channel.getattr a (Channel.removeUser nk c))
  /\ (forall x, x ∈ Channel.getattr a (Channel.removeUser nk c) ->
                x ∈ Channel.getattr a c)
  /\ (forall x, x <> Py.lower nk -> x ∈ Channel.getattr a c ->
                x ∈ Channel.getattr a (Channel.removeUser nk c))
  /\ Channel.bans (Channel.removeUser nk c) = Channel.bans c
  /\ Channel.modes (Channel.removeUser nk c) = Channel.modes c.
Proof.
  intros Hnd. rewrite getattr_removeUser.
  destruct (Py.inb (Py.lower nk) (Channel.getattr a c)) eqn:E.
  - split; [by apply remove_NoDup_notin|].
    split; [intros x; apply elem_of_remove|].
    split; [intros x Hx; by apply elem_of_remove_ne|].
    unfold Channel.removeUser, Channel.all_attrs. cbn [foldl].
    split.
    + by rewrite !(proj1 (bans_modes_remove_in _ _ _)).
    + by rewrite !(proj2 (bans_modes_remove_in _ _ _)).
  - split; [by apply inb_false|]. split; [done|]. split; [done|].
    unfold Channel.removeUser, Channel.all_attrs. cbn [foldl].
    split.
    + by rewrite !(proj1 (bans_modes_remove_in _ _ _)).
    + by rewrite !(proj2 (bans_modes_remove_in _ _ _)).
Qed.

Lemma Channel_removeUser_lists_witness :
  (Py.lower "Alice" ∉ Channel.getattr Channel.Aops
     (Channel.removeUser "Alice"
        (Channel.mk 0 "#a" ["alice"; "bob"] "nt" [] [] ["alice"] [] ["bob"] ["*!*@spam"] false)))
  /\ (forall x, x ∈ Channel.getattr Channel.Aops
        (Channel.removeUser "Alice"
           (Channel.mk 0 "#a" ["alice"; "bob"] "nt" [] [] ["alice"] [] ["bob"] ["*!*@spam"] false)) ->
        x ∈ Channel.getattr Channel.Aops
          (Channel.mk 0 "#a" ["alice"; "bob"] "nt" [] [] ["alice"] [] ["bob"] ["*!*@spam"] false))
  /\ (forall x, x <> Py.lower "Alice" ->
        x ∈ Channel.getattr Channel.Aops
          (Channel.mk 0 "#a" ["alice"; "bob"] "nt" [] [] ["alice"] [] ["bob"] ["*!*@spam"] false) ->
        x ∈ Channel.getattr Channel.Aops
          (Channel.removeUser "Alice"
             (Channel.mk 0 "#a" ["alice"; "bob"] "nt" [] [] ["alice"] [] ["bob"] ["*!*@spam"] false)))
  /\ Channel.bans (Channel.removeUser "Alice"
       (Channel.mk 0 "#a" ["alice"; "bob"] "nt" [] [] ["alice"] [] ["bob"] ["*!*@spam"] false))
     = ["*!*@spam"]
  /\ Channel.modes (Channel.removeUser "Alice"
       (Channel.mk 0 "#a" ["alice"; "bob"] "nt" [] [] ["alice"] [] ["bob"] ["*!*@spam"] false))
     = "nt".
Proof.
  apply (Channel_removeUser_lists "Alice"
           (Channel.mk 0 "#a" ["alice"; "bob"] "nt" [] [] ["alice"] [] ["bob"] ["*!*@spam"] false)
           Channel.Aops).
  simpl. apply NoDup_singleton.
Defined.

(** X5. [Channel.renameUser] rewrites exactly the lists that hold the old
    nick: there it deletes one occurrence and appends the lowercase new
    nick, so the list keeps its length and now holds the new nick; a list
    without the old nick is left as it was. It does not look whether the new
    nick is already in a list. *)
Theorem Channel_renameUser_lists nk new c a :
  length (Channel.getattr a (Channel.renameUser nk new c)) = length (Channel.getattr a c)
  /\ (Py.lower nk ∈ Channel.getattr a c ->
      Channel.getattr a (Channel.renameUser nk new c)
        = Py.remove (Py.lower nk) (Channel.getattr a c) ++ [Py.lower new])
  /\ (Py.lower nk ∉ Channel.getattr a c ->
      Channel.getattr a (Channel.renameUser nk new c) = Channel.getattr a c).
Proof.
  rewrite getattr_renameUser.
  destruct (Py.inb (Py.lower nk) (Channel.getattr a c)) eqn:E.
  - apply inb_true in E. split; [|split; [done|by intros []]].
    rewrite length_app. simpl. pose proof (length_remove _ _ E) as Hl.
    revert Hl. generalize (length (Py.remove (Py.lower nk) (Channel.getattr a c))).
    generalize (length (Channel.getattr a c)). intros; lia.
  - apply inb_false in E. split; [done|]. split; [by intros ?|done].
Qed.

Lemma Channel_renameUser_lists_witness :
  Channel.getattr Channel.Users
    (Channel.renameUser "Alice" "Carol"
       (Channel.mk 0 "#a" ["alice"; "bob"] "" [] [] ["alice"] [] [] [] false))
  = ["bob"; "carol"].
Proof.
  rewrite (proj1 (proj2 (Channel_renameUser_lists "Alice" "Carol"
             (Channel.mk 0 "#a" ["alice"; "bob"] "" [] [] ["alice"] [] [] [] false)
             Channel.Users))).
  - reflexivity.
  - simpl. by left.
Defined.

(** ** Mode changes *)

Section modeChanged_facts.
Import ForkingDongles.
Local Open Scope py_scope.

Lemma length_mode_letters modes : length (mode_letters modes) = String.length modes.
Proof. induction modes as [|m modes IH]; simpl; [done | by rewrite IH]. Qed.

(** The loop on a tracked channel, from index [x]: it applies the letters
    that have an argument position, in order, and raises on the first that
    has none. *)
Lemma modeChanged_loop_channel added channel x modes args s c :
  channels s !! Py.lower channel = Some c ->
  exists s',
    modeChanged_loop (fun m arg => on_channel channel (Channel.setMode added m arg))
      x modes args s
    = (if decide (String.length modes <= length (drop x args))
       then Ok tt s' else Raise IndexError s')
    /\ channels s'
       = <[Py.lower channel :=
             apply_modes added c (zip (mode_letters modes) (drop x args))]> (channels s)
    /\ users s' = users s.
Proof.
  revert x s c. induction modes as [|m modes IH]; intros x s c Hc.
  - exists s. cbn [modeChanged_loop mode_letters zip zip_with apply_modes foldl String.length].
    destruct (decide (0 <= length (drop x args))) as [_|Hn]; [|exfalso; lia].
    split; [done|]. split; [|done]. symmetry. by apply insert_id.
  - cbn [modeChanged_loop].
    destruct (args !! x) as [arg|] eqn:E.
    + rewrite (drop_S _ _ _ E). unfold bind.
      rewrite (on_channel_ok _ _ _ _ Hc).
      set (s1 := with_channels _ s).
      assert (channels s1 !! Py.lower channel = Some (Channel.setMode added (String m "") arg c))
        as Hc1 by (subst s1; simpl; apply lookup_insert_eq).
      destruct (IH (S x) s1 _ Hc1) as (s' & Hrun & Hch & Hus).
      exists s'. rewrite Hrun. split; [|split].
      * cbn [String.length length].
        destruct (decide (String.length modes <= length (drop (S x) args)));
          destruct (decide (S (String.length modes) <= S (length (drop (S x) args))));
          try done; exfalso; lia.
      * rewrite Hch. subst s1. simpl. by rewrite insert_insert_eq.
      * by rewrite Hus.
    + apply lookup_ge_None in E. rewrite (drop_ge _ _ E).
      exists s. cbn [String.length length].
      destruct (decide (S (String.length modes) <= 0)) as [Hn|_]; [exfalso; lia|].
      split; [done|]. split; [|done].
      cbn [mode_letters zip zip_with apply_modes foldl].
      symmetry. by apply insert_id.
Qed.

(** A loop whose [setMode] call changes no Channel changes none. *)
Lemma modeChanged_loop_channels apply x modes args s :
  (forall m arg s0, channels (state_of (apply m arg s0)) = channels s0) ->
  channels (state_of (modeChanged_loop apply x modes args s)) = channels s.
Proof.
  intros Happly. revert x s. induction modes as [|m modes IH]; intros x s; [done|].
  cbn [modeChanged_loop]. destruct (args !! x) as [arg|]; [|done].
  unfold bind. pose proof (Happly (String m "") arg s) as H1.
  destruct (apply (String m "") arg s) as [[] s1|e s1|s1]; simpl in H1; [|done|done].
  by rewrite IH.
Qed.

(** The loop on a tracked user changes no Channel. *)
Lemma modeChanged_loop_user_channels added channel x modes args s :
  channels (state_of (modeChanged_loop
    (fun m arg =>
       s <- get ;;
       u <- getitem (users s) (Py.lower channel) ;;
       modify (with_users <[Py.lower channel := User.setMode added m arg u]>))
    x modes args s)) = channels s.
Proof.
  apply modeChanged_loop_channels. intros m arg s0.
  unfold bind, get, getitem.
  by destruct (users s0 !! Py.lower channel) as [u|].
Qed.

End modeChanged_facts.

(** X6. [modeChanged] on a tracked channel whose name starts with [#]
    applies [setMode] letter by letter, each with the argument at its own
    position, in order. When [args] has a position for every letter it
    returns; when [args] is shorter it raises [IndexError] after having
    applied the letters that did have one. Users are not touched. For a name
    that starts with [#] and is not tracked nothing changes. For a target
    whose name does not start with [#], a channel tracked under such a name
    included, no Channel is changed. *)
Theorem modeChanged_channel_in_order user channel added modes args s :
  (Py.startswith "#" channel = true ->
   forall c, ForkingDongles.channels s !! Py.lower channel = Some c ->
   exists s',
     ForkingDongles.modeChanged user channel added modes args s
     = (if decide (String.length modes <= length args)
        then Ok tt s' else Raise IndexError s')
     /\ ForkingDongles.channels s'
        = <[Py.lower channel := apply_modes added c (zip (mode_letters modes) args)]>
            (ForkingDongles.channels s)
     /\ ForkingDongles.users s' = ForkingDongles.users s) /\
  (Py.startswith "#" channel = true ->
   ForkingDongles.channels s !! Py.lower channel = None ->
   ForkingDongles.modeChanged user channel added modes args s = Ok tt s) /\
  (Py.startswith "#" channel = false ->
   ForkingDongles.channels
     (state_of (ForkingDongles.modeChanged user channel added modes args s))
   = ForkingDongles.channels s).
Proof.
  split; [|split].
  - intros Hhash c Hc. unfold ForkingDongles.modeChanged, bind at 1, get.
    rewrite Hhash. cbn [negb].
    rewrite bool_decide_eq_true_2 by (rewrite Hc; eauto).
    apply (modeChanged_loop_channel added channel 0 modes args s c Hc).
  - intros Hhash Hc. unfold ForkingDongles.modeChanged, bind at 1, get.
    rewrite Hhash. cbn [negb].
    rewrite bool_decide_eq_false_2; [done|].
    rewrite Hc. by intros [? ?].
  - intros Hhash. unfold ForkingDongles.modeChanged, bind at 1, get.
    rewrite Hhash. cbn [negb].
    destruct (bool_decide _); [|done].
    apply modeChanged_loop_user_channels.
Qed.

Lemma modeChanged_channel_in_order_witness :
  (exists s',
    ForkingDongles.modeChanged None "#a" true "ov" [Some "Alice"] two_channels
    = Raise IndexError s'
    /\ ForkingDongles.channels s' !! "#a"
       = Some (Channel.mk 0 "#a" ["alice"] "" [] [] ["alice"] [] [] [] false))
  /\ ForkingDongles.modeChanged None "#nowhere" true "ov" [Some "Alice"] two_channels
     = Ok tt two_channels
  /\ ForkingDongles.channels
       (state_of (ForkingDongles.modeChanged None "&local" true "o" [Some "alice"]
                    (state_of (ForkingDongles.joined "&local" two_channels))))
     = ForkingDongles.channels (state_of (ForkingDongles.joined "&local" two_channels)).
Proof.
  split; [|split].
  - destruct (proj1 (modeChanged_channel_in_order None "#a" true "ov" [Some "Alice"]
                       two_channels) eq_refl
                (Channel.mk 0 "#a" ["alice"] "" [] [] [] [] [] [] false))
      as (s' & Hrun & Hch & _).
    + vm_compute. reflexivity.
    + exists s'. split; [exact Hrun|]. rewrite Hch. apply lookup_insert_eq.
  - apply (proj1 (proj2 (modeChanged_channel_in_order None "#nowhere" true "ov"
                           [Some "Alice"] two_channels))).
    + reflexivity.
    + vm_compute. reflexivity.
  - apply (proj2 (proj2 (modeChanged_channel_in_order None "&local" true "o"
                           [Some "alice"]
                           (state_of (ForkingDongles.joined "&local" two_channels))))).
    reflexivity.
Defined.

(** X7. A ban-list reply for a tracked channel whose name starts with [#]
    records the lowercase mask in the channel's ban list, once: a mask
    already listed is not added again; users and membership are as they
    were. The reply needs its four leading parameters: with fewer than four
    the handler raises [IndexError] and changes nothing, in every state. *)
Theorem BANLIST_records_mask prefix s :
  (forall p0 channel mask who rest c,
     Py.startswith "#" channel = true ->
     ForkingDongles.channels s !! Py.lower channel = Some c ->
     exists s',
       ForkingDongles.irc_RPL_BANLIST prefix (p0 :: channel :: mask :: who :: rest) s
         = Ok tt s'
       /\ ForkingDongles.users s' = ForkingDongles.users s
       /\ exists c',
            ForkingDongles.channels s' !! Py.lower channel = Some c'
            /\ Py.lower mask ∈ Channel.bans c'
            /\ Channel.bans c'
               = (if Py.inb (Py.lower mask) (Channel.bans c) then Channel.bans c
                  else Channel.bans c ++ [Py.lower mask])
            /\ Channel.users c' = Channel.users c) /\
  (forall params,
     length params < 4 ->
     ForkingDongles.irc_RPL_BANLIST prefix params s = Raise IndexError s).
Proof.
  split.
  - intros p0 channel mask who rest c Hhash Hc.
    unfold ForkingDongles.irc_RPL_BANLIST, ForkingDongles.modeChanged, bind at 1, get.
    rewrite Hhash. cbn [negb].
    rewrite bool_decide_eq_true_2 by (rewrite Hc; eauto).
    destruct (modeChanged_loop_channel true channel 0 "b" [Some mask] s c Hc)
      as (s' & Hrun & Hch & Hus).
    exists s'. split; [exact Hrun|]. split; [exact Hus|].
    eexists. split; [rewrite Hch; apply lookup_insert_eq|].
    unfold apply_modes. simpl.
    destruct (Py.inb (Py.lower mask) (Channel.bans c)) eqn:E; simpl.
    + by apply inb_true in E.
    + split; [|done]. apply elem_of_app. right. by left.
  - intros params Hlen.
    destruct params as [|p0 [|channel [|mask [|who rest]]]]; try reflexivity.
    simpl in Hlen. lia.
Qed.

Lemma BANLIST_records_mask_witness :
  (exists s',
    ForkingDongles.irc_RPL_BANLIST "irc.example.org"
      ["bot"; "#a"; "*!*@Spam.example"; "op!o@host"; "1700000000"] two_channels = Ok tt s'
    /\ exists c', ForkingDongles.channels s' !! "#a" = Some c'
                  /\ "*!*@spam.example" ∈ Channel.bans c')
  /\ ForkingDongles.irc_RPL_BANLIST "irc.example.org" ["bot"; "#a"] two_channels
     = Raise IndexError two_channels.
Proof.
  split.
  - destruct (proj1 (BANLIST_records_mask "irc.example.org" two_channels)
                "bot" "#a" "*!*@Spam.example" "op!o@host" ["1700000000"]
                (Channel.mk 0 "#a" ["alice"] "" [] [] [] [] [] [] false))
      as (s' & Hrun & _ & c' & Hc' & Hin & _).
    + reflexivity.
    + vm_compute. reflexivity.
    + exists s'. split; [exact Hrun|]. exists c'. split; [exact Hc' | exact Hin].
  - apply (proj2 (BANLIST_records_mask "irc.example.org" two_channels)). simpl. lia.
Defined.

(** ** More on the event registry *)

Section registry_roundtrip_facts.

Lemma od_del_snoc {K V} `{EqDecision K} (k : K) (v : V) (d : list (K * V)) :
  k ∉ d.*1 -> OD.del k (d ++ [(k, v)]) = d.
Proof.
  induction d as [|[k' v'] d IH]; simpl.
  - intros _. by rewrite decide_True.
  - intros [Hne Hnin]%not_elem_of_cons. rewrite decide_False by done.
    by rewrite IH.
Qed.

Lemma od_mem_snoc {K V} `{EqDecision K} (k : K) (v : V) (d : list (K * V)) :
  OD.mem k (d ++ [(k, v)]) = true.
Proof.
  apply od_mem_true. rewrite fmap_app. apply elem_of_app. right. by left.
Qed.

(** What a successful [register_callback] leaves: the events as they were,
    the callback last under its kind, the other kinds as they were. *)
Lemma register_callback_result name callback em callback_id em' :
  EventManager.register_callback name callback em = Ok callback_id em' ->
  events em' = events em
  /\ (callback_id ∉ (default [] (OD.get name (callbacks em))).*1)
  /\ OD.get name (callbacks em')
       = Some (default [] (OD.get name (callbacks em)) ++ [(callback_id, callback)])
  /\ (forall other, other <> name ->
        OD.get other (callbacks em') = OD.get other (callbacks em)).
Proof.
  intros Hrun.
  assert (EventManager._add_callback name callback em = Ok callback_id em') as Hadd.
  { revert Hrun. unfold EventManager.register_callback.
    destruct (negb (c_callable callback)); [done|].
    destruct (OD.get name (events em)); [|done].
    destruct (c_argspec callback) as [[arglen varargs]|]; [|done].
    by destruct (_ && _). }
  pose proof (add_callback_appends _ _ _ _ _ Hadd) as (Hfresh & Hget & Hev).
  split; [exact Hev|]. split; [exact Hfresh|]. split; [exact Hget|].
  intros other Hne. revert Hadd. unfold EventManager._add_callback.
  destruct (EventManager.fresh_id _ (draws em)) as [[i rest]|]; [|done].
  intros [= <- <-]. simpl. by apply od_get_set_ne.
Qed.

End registry_roundtrip_facts.



(** X9. On a declared kind [register_callback] stores only a callable whose
    number of named parameters equals the declared arity or that takes a
    variable tail; and whenever it raises, the registry is left as it was. *)
Theorem register_callback_arity name n callback em :
  OD.get name (events em) = Some n ->
  (forall callback_id em',
     EventManager.register_callback name callback em = Ok callback_id em' ->
     c_callable callback = true
     /\ exists arglen varargs,
          c_argspec callback = Some (arglen, varargs)
          /\ (Z.of_nat arglen = n \/ varargs = true)) /\
  (forall e em',
     EventManager.register_callback name callback em = Raise e em' -> em' = em).
Proof.
  intros Hn. unfold EventManager.register_callback. rewrite Hn. split.
  - intros callback_id em'.
    destruct (c_callable callback); [|done]. cbn [negb].
    destruct (c_argspec callback) as [[arglen varargs]|]; [|done].
    destruct (bool_decide (Z.of_nat arglen = n)) eqn:E; cbn [negb andb].
    + apply bool_decide_eq_true in E. intros _. split; [done|]. by eexists _, _; eauto.
    + destruct varargs; cbn [negb]; [|done].
      intros _. split; [done|]. by eexists _, _; eauto.
  - intros e em'.
    destruct (negb (c_callable callback)); [by intros [= _ <-]|].
    destruct (c_argspec callback) as [[arglen varargs]|]; [|by intros [= _ <-]].
    destruct (_ && _); [by intros [= _ <-]|].
    unfold EventManager._add_callback.
    by destruct (EventManager.fresh_id _ (draws em)) as [[i rest]|].
Qed.

Lemma register_callback_arity_witness :
  EventManager.register_callback (EName Event.PRIVMSG) wrong_arity_callback em_privmsg
    = Raise EventCallbackError em_privmsg.
Proof.
  pose proof (proj2 (register_callback_arity (EName Event.PRIVMSG) 3 wrong_arity_callback
                       em_privmsg eq_refl)) as Hraise.
  destruct (EventManager.register_callback (EName Event.PRIVMSG) wrong_arity_callback
              em_privmsg) as [i em'|e em'|em'] eqn:E.
  - discriminate E.
  - rewrite (Hraise e em' eq_refl). injection E as <- _. reflexivity.
  - discriminate E.
Defined.

(** X10. Registering a callback and unregistering it by the identifier
    returned is a round trip: the callbacks of that kind are again the ones
    there were, in their order, and the declared events and the callbacks of
    every other kind never changed. *)
Theorem register_unregister_callback name callback em callback_id em' :
  EventManager.register_callback name callback em = Ok callback_id em' ->
  exists em'',
    EventManager.unregister_callback name callback_id em' = Ok tt em''
    /\ default [] (OD.get name (callbacks em'')) = default [] (OD.get name (callbacks em))
    /\ events em'' = events em
    /\ (forall other, other <> name ->
          OD.get other (callbacks em'') = OD.get other (callbacks em)).
Proof.
  intros Hrun.
  destruct (register_callback_result _ _ _ _ _ Hrun) as (Hev & Hfresh & Hget & Hother).
  unfold EventManager.unregister_callback. rewrite Hget, od_mem_snoc. cbn [negb].
  eexists. split; [reflexivity|]. simpl.
  rewrite od_get_set_eq, (od_del_snoc _ _ _ Hfresh). split; [done|].
  split; [exact Hev|].
  intros other Hne. rewrite od_get_set_ne by done. by apply Hother.
Qed.

Lemma register_unregister_callback_witness :
  exists em'',
    EventManager.unregister_callback (EName Event.PRIVMSG) "m0Lp2T"
      (event_manager three_callbacks) = Ok tt em''
    /\ (default [] (OD.get (EName Event.PRIVMSG) (callbacks em''))).*1
       = ["k3Jd9a"; "Qw81Zx"].
Proof.
  destruct (register_unregister_callback (EName Event.PRIVMSG)
              (constant_callback "third" (Returns VNone))
              (state_of (EventManager.register_callback (EName Event.PRIVMSG)
                 (constant_callback "second" (Returns (VEvent Event.STOP_ALL)))
                 (state_of (EventManager.register_callback (EName Event.PRIVMSG)
                    (constant_callback "first" (Returns (VObj 1))) em_privmsg))))
              "m0Lp2T" (event_manager three_callbacks) eq_refl)
    as (em'' & Hrun & Hcbs & _).
  exists em''. split; [exact Hrun|]. rewrite Hcbs. reflexivity.
Defined.

(** ** Failures inside handlers *)

Section isolation_facts.

(** When every callback lets the loop go on, the loop calls them all. *)
Lemma fire_loop_all name params cbs result b :
  Forall (fun p : string * callable => always_carries_on p.2) cbs ->
  exists v b',
    EventManager.fire_loop name params cbs result b = Ok v b'
    /\ exists new, invoked b' = invoked b ++ new /\ map inv_owner new = cbs.*1.
Proof.
  intros Hall. revert result b.
  induction Hall as [|[id cb] cbs Hcb Hall IH]; intros result b.
  - exists result, b. split; [done|]. exists []. by rewrite app_nil_r.
  - destruct (c_call cb (EventManager.fire_args name params cb) (core b)) as [o s'] eqn:E.
    assert (EventManager.carries_on o = true) as Hgo.
    { specialize (Hcb (EventManager.fire_args name params cb) (core b)).
      simpl in Hcb. by rewrite E in Hcb. }
    destruct (fire_loop_carries_on name params id cb cbs result b o s' E Hgo) as (r & ->).
    destruct (IH r (Build_bot_t s' (event_manager b) (plugin_manager b)
                      (invoked b ++ [Build_invocation id (c_name cb)
                         (EventManager.fire_args name params cb) o])))
      as (v & b' & Hrun & new & Hnew & Hown).
    exists v, b'. split; [exact Hrun|].
    eexists (_ :: new). split; [rewrite Hnew; simpl; by rewrite <- app_assoc|].
    simpl. by rewrite Hown.
Qed.

(** One round of the routing loop on a command that is called and after
    which the loop goes on. *)
Lemma fire_command_loop_round cmd params user channel message owner command cmds result b :
  matches cmd message command = true ->
  always_routes_on command ->
  exists result' s' args o,
    PluginManager.fire_command_loop cmd params user channel message
      ((owner, command) :: cmds) result b
    = PluginManager.fire_command_loop cmd params user channel message cmds result'
        (Build_bot_t s' (event_manager b) (plugin_manager b)
           (invoked b ++ [Build_invocation owner (c_name command) args o])).
Proof.
  intros Hm Hgo. cbn [PluginManager.fire_command_loop].
  unfold matches in Hm.
  destruct (match c_commands command with
            | Some cs => Py.inb cmd cs
            | None => false
            end).
  - match goal with |- context [call owner command ?a b] =>
      destruct (call_spec owner command a b) as (o & s' & Hcall & ->);
      specialize (Hgo a (core b)); rewrite Hcall in Hgo; simpl in Hgo end.
    destruct o as [v| | |d|]; simpl in Hgo.
    + apply negb_true_iff in Hgo. rewrite Hgo. eexists v, s', _, _; reflexivity.
    + eexists result, s', _, _; reflexivity.
    + eexists result, s', _, _; reflexivity.
    + subst d. eexists result, s', _, _; reflexivity.
    + eexists result, s', _, _; reflexivity.
  - simpl in Hm. rewrite Hm.
    match goal with |- context [call owner command ?a b] =>
      destruct (call_spec owner command a b) as (o & s' & Hcall & ->);
      specialize (Hgo a (core b)); rewrite Hcall in Hgo; simpl in Hgo end.
    destruct o as [v| | |d|]; simpl in Hgo.
    + apply negb_true_iff in Hgo. rewrite Hgo. eexists v, s', _, _; reflexivity.
    + eexists result, s', _, _; reflexivity.
    + eexists result, s', _, _; reflexivity.
    + subst d. eexists result, s', _, _; reflexivity.
    + eexists result, s', _, _; reflexivity.
Qed.

Lemma fire_command_loop_skip cmd params user channel message owner command cmds result b :
  matches cmd message command = false ->
  PluginManager.fire_command_loop cmd params user channel message
    ((owner, command) :: cmds) result b
  = PluginManager.fire_command_loop cmd params user channel message cmds result b.
Proof.
  unfold matches. intros [H1 H2]%orb_false_iff.
  cbn [PluginManager.fire_command_loop]. by rewrite H1, H2.
Qed.

Lemma fire_command_loop_all cmd params user channel message cmds result b :
  Forall (fun p : string * callable => always_routes_on p.2) cmds ->
  exists v b',
    PluginManager.fire_command_loop cmd params user channel message cmds result b
      = Ok v b'
    /\ exists new,
         invoked b' = invoked b ++ new
         /\ map (fun i => (inv_owner i, inv_name i)) new = matching cmd message cmds.
Proof.
  intros Hall. revert result b.
  induction Hall as [|[owner command] cmds Hc Hall IH]; intros result b.
  - exists result, b. split; [done|]. exists []. by rewrite app_nil_r.
  - unfold matching. cbn [List.filter]. simpl in Hc.
    destruct (matches cmd message command) eqn:Hm.
    + destruct (fire_command_loop_round cmd params user channel message owner command
                  cmds result b Hm Hc) as (r & s' & args & o & ->).
      destruct (IH r (Build_bot_t s' (event_manager b) (plugin_manager b)
                        (invoked b ++ [Build_invocation owner (c_name command) args o])))
        as (v & b' & Hrun & new & Hnew & Hcalls).
      exists v, b'. split; [exact Hrun|].
      exists (Build_invocation owner (c_name command) args o :: new).
      split; [rewrite Hnew; simpl; by rewrite <- app_assoc|].
      unfold matching in Hcalls. simpl. rewrite Hm. simpl. by rewrite Hcalls.
    + rewrite (fire_command_loop_skip _ _ _ _ _ _ _ _ _ _ Hm).
      simpl. rewrite Hm. apply IH.
Qed.

End isolation_facts.

(** X11. A callback that raises does not stop [fire]: when no callback of
    the kind returns a stop sentinel or raises an [AssertionError] from
    outside [defer.py] (so, whatever else they raise), [fire] returns
    normally after calling every callback of the kind, in registration
    order. *)
Theorem fire_survives_failures name params b :
  OD.mem name (events (event_manager b)) = true ->
  Forall (fun p : string * callable => always_carries_on p.2) (registered name b) ->
  exists v b',
    EventManager.fire name params b = Ok v b'
    /\ map inv_owner (new_calls b b') = (registered name b).*1.
Proof.
  intros Hreg Hall. unfold EventManager.fire, registered in *. rewrite Hreg. cbn [negb].
  destruct (OD.get name (callbacks (event_manager b))) as [cbs|] eqn:E; simpl in *.
  - destruct (fire_loop_all name params cbs VNone b Hall)
      as (v & b' & Hrun & new & Hnew & Hown).
    exists v, b'. split; [exact Hrun|]. by rewrite (new_calls_app _ _ _ Hnew).
  - eexists _, _. split; [reflexivity|]. unfold new_calls. simpl.
    by rewrite drop_all.
Qed.

Lemma fire_survives_failures_witness :
  exists v b',
    EventManager.fire (EName Event.PRIVMSG)
      [AStr "alice!al@host"; AStr "#test"; AStr "hello"] noisy_callbacks = Ok v b'
    /\ map inv_owner (new_calls noisy_callbacks b')
       = (registered (EName Event.PRIVMSG) noisy_callbacks).*1.
Proof.
  apply (fire_survives_failures (EName Event.PRIVMSG)
           [AStr "alice!al@host"; AStr "#test"; AStr "hello"] noisy_callbacks).
  - reflexivity.
  - repeat constructor.
Defined.

(** X12. In [fire_command] only the stop-all sentinel ends the routing pass.
    When no handler returns it or raises an [AssertionError] from outside
    [defer.py] (a handler may return the plain stop sentinel, raise
    [CommandNeedsArgsError] or fail otherwise), the pass returns normally
    and has called, in the order of [itercommands], exactly the handlers
    whose token set holds the leading token or whose pattern matches the
    message. *)
Theorem fire_command_calls_every_match user channel message b :
  Forall (fun p : string * callable => always_routes_on p.2)
    (PluginManager.itercommands (Some channel) (plugin_manager b)) ->
  exists v b',
    PluginManager.fire_command user channel message b = Ok v b'
    /\ map (fun i => (inv_owner i, inv_name i)) (new_calls b b')
       = matching (Py.partition " " message).1.1 message
           (PluginManager.itercommands (Some channel) (plugin_manager b)).
Proof.
  intros Hall. unfold PluginManager.fire_command.
  destruct (Py.partition " " message) as [[cmd sep] params]. simpl.
  destruct (fire_command_loop_all cmd params user channel message _ VNone b Hall)
    as (v & b' & Hrun & new & Hnew & Hcalls).
  exists v, b'. split; [exact Hrun|]. by rewrite (new_calls_app _ _ _ Hnew).
Qed.

Lemma fire_command_calls_every_match_witness :
  exists v b',
    PluginManager.fire_command visitor (OChannel test_channel) "hello there"
      first_then_second = Ok v b'
    /\ map (fun i => (inv_owner i, inv_name i)) (new_calls first_then_second b')
       = [("first", "first_hello"); ("second", "second_hello")].
Proof.
  apply (fire_command_calls_every_match visitor (OChannel test_channel) "hello there"
           first_then_second).
  repeat constructor.
Defined.

(** ** The message handler *)

Section privmsg_facts.


Lemma call_keeps P owner c args b :
  handler_keeps P c -> P (core b) -> P (core (call owner c args b).2).
Proof.
  intros Hk Hb. destruct (call_spec owner c args b) as (o & s' & Hcall & ->). simpl.
  specialize (Hk args (core b) Hb). by rewrite Hcall in Hk.
Qed.

Lemma fire_loop_keeps P name params cbs result b :
  Forall (fun p : string * callable => handler_keeps P p.2) cbs ->
  P (core b) ->
  P (core (state_of (EventManager.fire_loop name params cbs result b)))
  /\ event_manager (state_of (EventManager.fire_loop name params cbs result b))
     = event_manager b
  /\ plugin_manager (state_of (EventManager.fire_loop name params cbs result b))
     = plugin_manager b.
Proof.
  intros Hall. revert result b.
  induction Hall as [|[id cb] cbs Hcb Hall IH]; intros result b Hb; [done|].
  simpl in Hcb. cbn [EventManager.fire_loop].
  assert (event_manager (call id cb (EventManager.fire_args name params cb) b).2
          = event_manager b
          /\ plugin_manager (call id cb (EventManager.fire_args name params cb) b).2
             = plugin_manager b) as [He Hp].
  { by destruct (call_spec id cb (EventManager.fire_args name params cb) b)
      as (o & s' & _ & ->). }
  pose proof (call_keeps P id cb (EventManager.fire_args name params cb) b Hcb Hb) as Hb1.
  destruct (call id cb (EventManager.fire_args name params cb) b) as [o b1].
  simpl in Hb1, He, Hp.
  destruct o as [v| | |d|].
  - destruct (EventManager.is_stop v); [done|].
    destruct (IH v b1 Hb1) as (? & ? & ?). split; [done|]. split; congruence.
  - destruct (IH result b1 Hb1) as (? & ? & ?). split; [done|]. split; congruence.
  - destruct (IH result b1 Hb1) as (? & ? & ?). split; [done|]. split; congruence.
  - destruct d; unfold bind, _deferassertion; simpl; [|done].
    destruct (IH result b1 Hb1) as (? & ? & ?). split; [done|]. split; congruence.
  - destruct (IH result b1 Hb1) as (? & ? & ?). split; [done|]. split; congruence.
Qed.

Lemma fire_command_loop_keeps P cmd params user channel message cmds result b :
  Forall (fun p : string * callable => handler_keeps P p.2) cmds ->
  P (core b) ->
  P (core (state_of (PluginManager.fire_command_loop cmd params user channel message
                       cmds result b)))
  /\ event_manager (state_of (PluginManager.fire_command_loop cmd params user channel
                                message cmds result b)) = event_manager b.
Proof.
  intros Hall. revert result b.
  induction Hall as [|[owner command] cmds Hc Hall IH]; intros result b Hb; [done|].
  simpl in Hc. cbn [PluginManager.fire_command_loop].
  destruct (match c_commands command with
            | Some cs => Py.inb cmd cs
            | None => false
            end).
  - match goal with |- context [call owner command ?a b] =>
      assert (event_manager (call owner command a b).2 = event_manager b) as He
        by (by destruct (call_spec owner command a b) as (o & s' & _ & ->));
      pose proof (call_keeps P owner command a b Hc Hb) as Hb1;
      destruct (call owner command a b) as [o b1] end.
    simpl in Hb1, He.
    destruct o as [v| | |d|].
    + destruct (bool_decide (v = VEvent Event.STOP_ALL)); [done|].
      destruct (IH v b1 Hb1) as (? & ?). split; [done | congruence].
    + destruct (IH result b1 Hb1) as (? & ?). split; [done | congruence].
    + destruct (IH result b1 Hb1) as (? & ?). split; [done | congruence].
    + destruct d; unfold bind, _deferassertion; simpl; [|done].
      destruct (IH result b1 Hb1) as (? & ?). split; [done | congruence].
    + destruct (IH result b1 Hb1) as (? & ?). split; [done | congruence].
  - destruct (match c_regex command with
              | Some re => re message
              | None => false
              end); [|by apply IH].
    match goal with |- context [call owner command ?a b] =>
      assert (event_manager (call owner command a b).2 = event_manager b) as He
        by (by destruct (call_spec owner command a b) as (o & s' & _ & ->));
      pose proof (call_keeps P owner command a b Hc Hb) as Hb1;
      destruct (call owner command a b) as [o b1] end.
    simpl in Hb1, He.
    destruct o as [v| | |d|].
    + destruct (bool_decide (v = VEvent Event.STOP_ALL)); [done|].
      destruct (IH v b1 Hb1) as (? & ?). split; [done | congruence].
    + destruct (IH result b1 Hb1) as (? & ?). split; [done | congruence].
    + destruct (IH result b1 Hb1) as (? & ?). split; [done | congruence].
    + destruct d; unfold bind, _deferassertion; simpl; [|done].
      destruct (IH result b1 Hb1) as (? & ?). split; [done | congruence].
    + destruct (IH result b1 Hb1) as (? & ?). split; [done | congruence].
Qed.

(** The commands yielded for a channel are among those yielded for none. *)
Lemma itercommands_Forall (Q : string * callable -> Prop) channel pm :
  Forall Q (PluginManager.itercommands None pm) ->
  Forall Q (PluginManager.itercommands channel pm).
Proof.
  unfold PluginManager.itercommands.
  induction (plugins pm) as [|np l IH]; simpl; [done|].
  intros [H1 H2]%Forall_app. apply Forall_app. split; [|by apply IH].
  destruct channel as [ch|]; [|done].
  by destruct (py_in ch (Plugin.blacklist np.2)).
Qed.

End privmsg_facts.

(** X13. [privmsg] itself stores nothing: the User and the Channel it
    builds for an unknown sender or a private query are handed to the
    handlers and dropped. So a property of the tables that every loaded
    command handler and every [PRIVMSG] callback keeps, and that does not
    depend on how many Channel objects were built, still holds when
    [privmsg] is over, however it ends. *)
Theorem privmsg_stores_nothing (P : ForkingDongles.t -> Prop) user channel message b :
  (forall s, P s -> P (ForkingDongles.bump_oid s)) ->
  Forall (fun p : string * callable => handler_keeps P p.2)
    (PluginManager.itercommands None (plugin_manager b)) ->
  Forall (fun p : string * callable => handler_keeps P p.2)
    (registered (EName Event.PRIVMSG) b) ->
  P (core b) ->
  P (core (state_of (Dispatch.privmsg user channel message b))).
Proof.
  intros Hoid Hcmds Hcbs Hb.
  unfold Dispatch.privmsg, bind at 1, get.
  set (u := match ForkingDongles.users (core b) !! _ with Some u => u | None => _ end).
  assert (forall (ch : Channel.t) (b0 : bot_t),
            P (core b0) -> event_manager b0 = event_manager b ->
            plugin_manager b0 = plugin_manager b ->
            P (core (state_of
              ((result <- PluginManager.fire_command u (OChannel ch) message ;;
                if bool_decide (result = VEvent Event.STOP_ALL) then ret tt
                else _ <- EventManager.fire (EName Event.PRIVMSG)
                            [AUser u; AObj (OChannel ch); AStr message] ;;
                     ret tt)%py b0)))) as Hrest.
  { intros ch b0 Hb0 He0 Hp0. unfold bind at 1, PluginManager.fire_command.
    destruct (Py.partition " " message) as [[cmd sep] params].
    pose proof (fire_command_loop_keeps P cmd params u (OChannel ch) message
                  (PluginManager.itercommands (Some (OChannel ch)) (plugin_manager b0))
                  VNone b0) as Hk.
    rewrite Hp0 in Hk.
    specialize (Hk (itercommands_Forall _ _ _ Hcmds) Hb0) as [Hk He1].
    rewrite Hp0.
    destruct (PluginManager.fire_command_loop cmd params u (OChannel ch) message _ VNone b0)
      as [v b1|e b1|b1]; simpl in Hk, He1; [|done|done].
    destruct (bool_decide (v = VEvent Event.STOP_ALL)); [done|].
    unfold bind, EventManager.fire.
    destruct (negb (OD.mem (EName Event.PRIVMSG) (events (event_manager b1)))); [done|].
    unfold registered in Hcbs. rewrite He1, He0.
    destruct (OD.get (EName Event.PRIVMSG) (callbacks (event_manager b))) as [cbs|] eqn:E.
    - pose proof (fire_loop_keeps P (EName Event.PRIVMSG)
                    [AUser u; AObj (OChannel ch); AStr message] cbs VNone b1 Hcbs Hk)
        as (Hf & _).
      by destruct (EventManager.fire_loop _ _ cbs VNone b1).
    - done. }
  destruct (ForkingDongles.channels (core b) !! Py.lower channel) as [c|].
  - exact (Hrest c b Hb eq_refl eq_refl).
  - exact (Hrest _ (with_core (ForkingDongles.bump_oid (core b)) b)
             (Hoid _ Hb) eq_refl eq_refl).
Qed.

Lemma privmsg_stores_nothing_witness :
  ForkingDongles.users
    (core (state_of (Dispatch.privmsg "mallory!m@host" "bot" "hello there" zeta_then_alpha)))
  = ∅.
Proof.
  apply (privmsg_stores_nothing (fun s => ForkingDongles.users s = ∅)
           "mallory!m@host" "bot" "hello there" zeta_then_alpha).
  - intros s Hs. exact Hs.
  - repeat (constructor; [intros args s Hs; exact Hs|]). constructor.
  - repeat (constructor; [intros args s Hs; exact Hs|]). constructor.
  - reflexivity.
Defined.


